(** * The Bluetooth screen of the mobile app (app/(tabs)/bluetooth.tsx)

    A shallow embedding of the screen component: its React state and refs
    as a record, its handlers as computations in a small monad that
    threads the state, collects the calls made to the outside (alerts,
    console diagnostics, BLE manager and OS permission calls) in the order
    they are made, and carries JavaScript exceptions.

    Every handler is run to completion: the suspension points of the
    async functions ([await]) are not interleaved with other handlers. *)

From Stdlib Require Import Ascii NArith.
From stdpp Require Import base option list strings gmap.

Set Default Proof Using "Type".
Local Open Scope string_scope.
Local Open Scope list_scope.

(** ** JavaScript values the screen handles *)

(** What a [throw] or a rejected promise carries. *)
Inductive exn : Type :=
  | BleError (message : string)
  | ReferenceError (identifier : string)
  | InvalidCharacterError
  | PermissionError (message : string)
  | TypeError.

(** The settled value of a call: a result, or an exception (a rejected
    promise once awaited). *)
Inductive outcome (A : Type) : Type :=
  | Ret (a : A)
  | Throw (e : exn).
Arguments Ret {A} a.
Arguments Throw {A} e.

(** ** The BLE client library, as the screen sees it (react-native-ble-plx) *)

Module Ble.

Record Characteristic : Type := {
  c_uuid : string;
  isWritableWithResponse : bool;
  isWritableWithoutResponse : bool;
}.

(** [characteristics] is what [service.characteristics()] settles to. *)
Record Service : Type := {
  s_uuid : string;
  characteristics : outcome (list Characteristic);
}.

(** [name] is [string | null]; [services] and
    [discoverAllServicesAndCharacteristics] are what the method calls of
    the same name settle to. *)
Record Device : Type := {
  id : string;
  name : option string;
  discoverAllServicesAndCharacteristics : outcome unit;
  services : outcome (list Service);
}.

(** A non-nullish value that [startDeviceScan] handed back and that is kept
    in [scanSubscription] (the ref is typed [any]): an object with a
    [remove] method, with what calling it does, or a value without one,
    such as a Promise. *)
Inductive Subscription : Type :=
  | Removable (s : nat) (remove : outcome unit)
  | NotRemovable.

(** A manager instance: what each of its methods the screen calls
    answers.  [startDeviceScan] is the value the call returns, [None] for
    a nullish one; the screen does not await it and uses it only through
    [?.remove()]. *)
Record BleManager : Type := {
  startDeviceScan : option Subscription;
  connectToDevice : string -> outcome Device;
  writeCharacteristicWithResponseForDevice :
    string -> string -> string -> string -> outcome unit;
}.

End Ble.

(** ** Calls that leave the component, in the order they are made *)

Inductive Event : Type :=
  | Alert (title : string) (message : option string)
  | ConsoleWarn (label : option string) (e : exn)
  | RequestMultiple (permissions : list string)
  | StartDeviceScan
  | StopDeviceScan
  | SubscriptionRemove (s : nat)
  | ConnectToDevice (deviceId : string)
  | DiscoverAllServicesAndCharacteristics (deviceId : string)
  | Services (deviceId : string)
  | Characteristics (serviceUUID : string)
  | WriteCharacteristicWithResponseForDevice
      (deviceId serviceUUID characteristicUUID base64 : string)
  | WriteCharacteristicWithoutResponseForDevice
      (deviceId serviceUUID characteristicUUID base64 : string)
  | CancelDeviceConnection (deviceId : string).

(** ** The component's state: four [useState] cells and two [useRef] cells *)

Record State : Type := {
  devices : list Ble.Device;
  scanning : bool;
  connected : option Ble.Device;
  payload : string;
  scanSubscription : option Ble.Subscription;
  managerRef : option Ble.BleManager;
}.

(** ** Host environment: the platform and the OS permission dialog *)

Record Env : Type := {
  Platform_OS : string;
  requestMultiple : list string -> outcome (gmap string string);
}.

(** Names and results of react-native's [PermissionsAndroid]. *)
Module PermissionsAndroid.
Definition ACCESS_FINE_LOCATION := "android.permission.ACCESS_FINE_LOCATION".
Definition BLUETOOTH_SCAN := "android.permission.BLUETOOTH_SCAN".
Definition BLUETOOTH_CONNECT := "android.permission.BLUETOOTH_CONNECT".
Definition GRANTED := "granted".
Definition DENIED := "denied".
Definition NEVER_ASK_AGAIN := "never_ask_again".
End PermissionsAndroid.

(** ** The monad of handlers *)

Definition M (A : Type) : Type := State -> outcome A * State * list Event.

Definition ret {A} (a : A) : M A := fun st => (Ret a, st, []).

Definition bind {A B} (c : M A) (k : A -> M B) : M B := fun st =>
  match c st with
  | (Ret a, st1, tr1) =>
      match k a st1 with
      | (r, st2, tr2) => (r, st2, tr1 ++ tr2)
      end
  | (Throw e, st1, tr1) => (Throw e, st1, tr1)
  end.

Definition throw {A} (e : exn) : M A := fun st => (Throw e, st, []).

(** [try { body } catch (e) { handler e }] *)
Definition try_catch {A} (body : M A) (handler : exn -> M A) : M A := fun st =>
  match body st with
  | (Ret a, st1, tr1) => (Ret a, st1, tr1)
  | (Throw e, st1, tr1) =>
      match handler e st1 with
      | (r, st2, tr2) => (r, st2, tr1 ++ tr2)
      end
  end.

Definition emit (e : Event) : M unit := fun st => (Ret tt, st, [e]).

(** Awaiting a call whose settled value is [o]. *)
Definition settle {A} (o : outcome A) : M A := fun st => (o, st, []).

Definition read {A} (f : State -> A) : M A := fun st => (Ret (f st), st, []).

Definition modify (f : State -> State) : M unit := fun st => (Ret tt, f st, []).

Notation "x <- c ;; k" := (bind c (fun x => k))
  (at level 100, c at next level, right associativity).
Notation "c ;;; k" := (bind c (fun _ => k))
  (at level 100, right associativity).

Definition result_of {A} (r : outcome A * State * list Event) : outcome A := r.1.1.
Definition state_of {A} (r : outcome A * State * list Event) : State := r.1.2.
Definition trace_of {A} (r : outcome A * State * list Event) : list Event := r.2.

(** State setters ([setDevices], [setScanning], ... and the ref writes). *)
Definition with_devices (f : list Ble.Device -> list Ble.Device) (st : State) : State :=
  {| devices := f (devices st); scanning := scanning st; connected := connected st;
     payload := payload st; scanSubscription := scanSubscription st;
     managerRef := managerRef st |}.

Definition with_scanning (b : bool) (st : State) : State :=
  {| devices := devices st; scanning := b; connected := connected st;
     payload := payload st; scanSubscription := scanSubscription st;
     managerRef := managerRef st |}.

Definition with_connected (c : option Ble.Device) (st : State) : State :=
  {| devices := devices st; scanning := scanning st; connected := c;
     payload := payload st; scanSubscription := scanSubscription st;
     managerRef := managerRef st |}.

Definition with_payload (p : string) (st : State) : State :=
  {| devices := devices st; scanning := scanning st; connected := connected st;
     payload := p; scanSubscription := scanSubscription st;
     managerRef := managerRef st |}.

Definition with_scanSubscription (s : option Ble.Subscription) (st : State) : State :=
  {| devices := devices st; scanning := scanning st; connected := connected st;
     payload := payload st; scanSubscription := s;
     managerRef := managerRef st |}.

Definition with_managerRef (m : option Ble.BleManager) (st : State) : State :=
  {| devices := devices st; scanning := scanning st; connected := connected st;
     payload := payload st; scanSubscription := scanSubscription st;
     managerRef := m |}.

Definition setDevices (f : list Ble.Device -> list Ble.Device) : M unit :=
  modify (with_devices f).
Definition setScanning (b : bool) : M unit := modify (with_scanning b).
Definition setConnected (c : option Ble.Device) : M unit := modify (with_connected c).
Definition setPayload (p : string) : M unit := modify (with_payload p).

Definition Alert_alert (title : string) (message : option string) : M unit :=
  emit (Alert title message).
Definition console_warn (label : option string) (e : exn) : M unit :=
  emit (ConsoleWarn label e).

(** ** Calls into the BLE library and the OS: each records the call and
       settles to the answer of the callee *)

Definition PermissionsAndroid_requestMultiple (env : Env) (permissions : list string)
  : M (gmap string string) :=
  emit (RequestMultiple permissions) ;;; settle (requestMultiple env permissions).

(** [manager.startDeviceScan(...)] and [manager.stopDeviceScan()] are
    called without [await]: the handler goes on with the value returned,
    and whatever a returned promise settles to stays outside it. *)
Definition manager_startDeviceScan (manager : Ble.BleManager)
  : M (option Ble.Subscription) :=
  emit StartDeviceScan ;;; ret (Ble.startDeviceScan manager).

Definition manager_stopDeviceScan (manager : Ble.BleManager) : M unit :=
  emit StopDeviceScan.

(** [scanSubscription.current?.remove()]: nothing on a nullish value, the
    call of [remove] where the value has one, a [TypeError] where it has
    none. *)
Definition subscription_remove (s : option Ble.Subscription) : M unit :=
  match s with
  | Some (Ble.Removable s remove) => emit (SubscriptionRemove s) ;;; settle remove
  | Some Ble.NotRemovable => throw TypeError
  | None => ret tt
  end.

Definition manager_connectToDevice (manager : Ble.BleManager) (deviceId : string)
  : M Ble.Device :=
  emit (ConnectToDevice deviceId) ;;; settle (Ble.connectToDevice manager deviceId).

Definition device_discoverAllServicesAndCharacteristics (d : Ble.Device) : M unit :=
  emit (DiscoverAllServicesAndCharacteristics (Ble.id d)) ;;;
  settle (Ble.discoverAllServicesAndCharacteristics d).

Definition device_services (d : Ble.Device) : M (list Ble.Service) :=
  emit (Services (Ble.id d)) ;;; settle (Ble.services d).

Definition service_characteristics (s : Ble.Service) : M (list Ble.Characteristic) :=
  emit (Characteristics (Ble.s_uuid s)) ;;; settle (Ble.characteristics s).

Definition manager_writeCharacteristicWithResponseForDevice
    (manager : Ble.BleManager) (deviceId serviceUUID characteristicUUID base64 : string)
  : M unit :=
  emit (WriteCharacteristicWithResponseForDevice
          deviceId serviceUUID characteristicUUID base64) ;;;
  settle (Ble.writeCharacteristicWithResponseForDevice
            manager deviceId serviceUUID characteristicUUID base64).

Definition manager_cancelDeviceConnection (manager : Ble.BleManager) (deviceId : string)
  : M unit :=
  emit (CancelDeviceConnection deviceId).

(** Evaluating an identifier that no enclosing scope binds. *)
Definition unbound {A} (identifier : string) : M A :=
  throw (ReferenceError identifier).

(** ** requestAndroidPermissions (module level) *)

Definition requestAndroidPermissions (env : Env) : M bool :=
  if bool_decide (Platform_OS env ≠ "android") then ret true
  else
    try_catch
      (granted <- PermissionsAndroid_requestMultiple env
                    [PermissionsAndroid.ACCESS_FINE_LOCATION;
                     PermissionsAndroid.BLUETOOTH_SCAN;
                     PermissionsAndroid.BLUETOOTH_CONNECT] ;;
       ret (bool_decide (granted !! PermissionsAndroid.ACCESS_FINE_LOCATION
                         = Some PermissionsAndroid.GRANTED)
            || bool_decide (granted !! PermissionsAndroid.BLUETOOTH_SCAN
                            = Some PermissionsAndroid.GRANTED)))
      (fun err => ret false).

(** ** BluetoothScreen *)

Definition initial_state : State :=
  {| devices := []; scanning := false; connected := None; payload := "";
     scanSubscription := None; managerRef := None |}.

(** The mount effect; [new_BleManager] is what [new BleManager()] does in
    the host (it throws where the native module is absent). *)
Definition useEffect_mount (new_BleManager : outcome Ble.BleManager) : M unit :=
  try_catch
    (m <- settle new_BleManager ;; modify (with_managerRef (Some m)))
    (fun e =>
       console_warn (Some "BleManager not available in this environment") e ;;;
       modify (with_managerRef None)).

Definition ensureManager : M (option Ble.BleManager) :=
  m <- read managerRef ;;
  match m with
  | None =>
      Alert_alert "BLE no disponible"
        (Some "El módulo BLE no está disponible en este entorno. Usa un cliente nativo o un build personalizado.")
  | Some _ => ret tt
  end ;;;
  read managerRef.

(** The listener handed to [startDeviceScan]: [(err, device) => ...]. *)
Definition scanListener (err : option exn) (device : option Ble.Device) : M unit :=
  match err with
  | Some err =>
      console_warn (Some "Scan error") err ;;;
      setScanning false
  | None =>
      match device with
      | Some device =>
          if bool_decide (Ble.id device ≠ "") then
            setDevices (fun prev =>
              match List.find (fun d => bool_decide (Ble.id d = Ble.id device)) prev with
              | Some _ => prev
              | None => prev ++ [device]
              end)
          else ret tt
      | None => ret tt
      end
  end.

Definition startScan (env : Env) : M unit :=
  manager <- ensureManager ;;
  match manager with
  | None => ret tt
  | Some manager =>
      ok <- requestAndroidPermissions env ;;
      if negb ok then
        Alert_alert "Permisos"
          (Some "No se concedieron permisos necesarios para escaneo BLE")
      else
        setDevices (fun _ => []) ;;;
        setScanning true ;;;
        sub <- manager_startDeviceScan manager ;;
        modify (with_scanSubscription sub)
  end.

Definition stopScan : M unit :=
  manager <- read managerRef ;;
  match manager with
  | None => ret tt
  | Some manager =>
      manager_stopDeviceScan manager ;;;
      setScanning false ;;;
      sub <- read scanSubscription ;;
      subscription_remove sub
  end.

(** [d.name || d.id] *)
Definition name_or_id (d : Ble.Device) : string :=
  match Ble.name d with
  | Some n => if bool_decide (n ≠ "") then n else Ble.id d
  | None => Ble.id d
  end.

Definition connectToDevice (device : Ble.Device) : M unit :=
  manager <- ensureManager ;;
  match manager with
  | None => ret tt
  | Some manager =>
      try_catch
        (stopScan ;;;
         d <- manager_connectToDevice manager (Ble.id device) ;;
         device_discoverAllServicesAndCharacteristics d ;;;
         setConnected (Some d) ;;;
         Alert_alert "Conectado" (Some ("Conectado a " +:+ name_or_id d)))
        (fun e =>
           console_warn None e ;;;
           Alert_alert "Error" (Some "No se pudo conectar"))
  end.

Section SendPayload.

(** [encode] of the base-64 package, imported as [btoa]: it throws on
    text it cannot encode. *)
Variable btoa : string -> outcome string.

(** The inner [for (const c of characteristics)]; the result tells
    whether the body executed [return]. *)
Fixpoint for_characteristics (manager : Ble.BleManager) (connected : Ble.Device)
    (payload : string) (service : Ble.Service) (cs : list Ble.Characteristic)
  : M bool :=
  match cs with
  | [] => ret false
  | c :: cs' =>
      if Ble.isWritableWithResponse c || Ble.isWritableWithoutResponse c then
        base64 <- settle (btoa payload) ;;
        manager_writeCharacteristicWithResponseForDevice manager
          (Ble.id connected) (Ble.s_uuid service) (Ble.c_uuid c) base64 ;;;
        Alert_alert "Enviado" (Some "Payload enviado correctamente") ;;;
        ret true
      else for_characteristics manager connected payload service cs'
  end.

(** The outer [for (const service of services)]. *)
Fixpoint for_services (manager : Ble.BleManager) (connected : Ble.Device)
    (payload : string) (ss : list Ble.Service) : M bool :=
  match ss with
  | [] => ret false
  | service :: ss' =>
      characteristics <- service_characteristics service ;;
      returned <- for_characteristics manager connected payload service characteristics ;;
      if returned : bool then ret true
      else for_services manager connected payload ss'
  end.

Definition sendPayload : M unit :=
  manager <- ensureManager ;;
  match manager with
  | None => ret tt
  | Some manager =>
      connected <- read connected ;;
      match connected with
      | None =>
          Alert_alert "No conectado" (Some "Conéctate a un dispositivo primero")
      | Some connected =>
          payload <- read payload ;;
          try_catch
            (services <- device_services connected ;;
             returned <- for_services manager connected payload services ;;
             if returned : bool then ret tt
             else Alert_alert "No characteristic"
                    (Some "No se encontró característica escribible"))
            (fun err =>
               console_warn None err ;;;
               Alert_alert "Error" (Some "No se pudo enviar payload"))
      end
  end.

End SendPayload.

(** The scan button: [scanning ? stopScan() : startScan()]. *)
Definition onPressScan (env : Env) : M unit :=
  s <- read scanning ;;
  if s : bool then stopScan else startScan env.

(** The disconnect button.  [manager] is a [const] local to [startScan],
    [stopScan], [connectToDevice] and [sendPayload]; neither the body of
    [BluetoothScreen] nor the module binds that name. *)
Definition onPressDisconnect : M unit :=
  c <- read connected ;;
  match c with
  | Some connected =>
      manager <- unbound "manager" ;;
      manager_cancelDeviceConnection manager (Ble.id connected) ;;;
      setConnected None ;;;
      Alert_alert "Desconectado" None
  | None => ret tt
  end.

(** ** The screen as a transition system

    What can happen to a mounted screen: a button press, a text change, or
    the BLE library invoking the scan listener.  [StartScan] and
    [StopScan] are the two functions behind the scan button, also taken
    directly, so that runs in which [startScan] is entered again before
    the flag it sets is rendered are covered. *)

Inductive Action : Type :=
  | PressScan (env : Env)
  | StartScan (env : Env)
  | StopScan
  | ScanEvent (err : option exn) (device : option Ble.Device)
  | PressConnect (device : Ble.Device)
  | PressDisconnect
  | ChangeText (text : string)
  | PressSend.

Section Run.

Variable btoa : string -> outcome string.

Definition handler (a : Action) : M unit :=
  match a with
  | PressScan env => onPressScan env
  | StartScan env => startScan env
  | StopScan => stopScan
  | ScanEvent err device => scanListener err device
  | PressConnect device => connectToDevice device
  | PressDisconnect => onPressDisconnect
  | ChangeText text => setPayload text
  | PressSend => sendPayload btoa
  end.

(** Runs the handlers of [acts] one after the other; an exception that
    escapes a handler ends that handler only.  The second component is
    everything the screen did to the outside so far. *)
Fixpoint run (acts : list Action) (w : State * list Event) : State * list Event :=
  match acts with
  | [] => w
  | a :: acts' =>
      match handler a w.1 with
      | (_, st', tr) => run acts' (st', w.2 ++ tr)
      end
  end.

Definition mounted (new_BleManager : outcome Ble.BleManager) : State * list Event :=
  match useEffect_mount new_BleManager initial_state with
  | (_, st, tr) => (st, tr)
  end.

(** States a mounted screen can be in. *)
Definition reachable (st : State) : Prop :=
  exists new_BleManager acts, (run acts (mounted new_BleManager)).1 = st.

End Run.

Definition is_write (e : Event) : bool :=
  match e with
  | WriteCharacteristicWithResponseForDevice _ _ _ _ => true
  | WriteCharacteristicWithoutResponseForDevice _ _ _ _ => true
  | _ => false
  end.

Definition is_alert (e : Event) : bool :=
  match e with
  | Alert _ _ => true
  | _ => false
  end.

(** The calls by which [sendPayload] walks the services of a device. *)
Definition is_enumeration (e : Event) : bool :=
  match e with
  | Services _ | Characteristics _ => true
  | _ => false
  end.

Definition writable (c : Ble.Characteristic) : bool :=
  Ble.isWritableWithResponse c || Ble.isWritableWithoutResponse c.

(** ** A base64 encoder, to run [sendPayload] on concrete payloads *)

Definition base64_alphabet : string :=
  "ABCDEFGHIJKLMNOPQRSTUVWXYZabcdefghijklmnopqrstuvwxyz0123456789+/".

Definition base64_digit (n : N) : ascii :=
  match String.get (N.to_nat n) base64_alphabet with
  | Some c => c
  | None => "="%char
  end.

Fixpoint base64_groups (bytes : list N) : string :=
  match bytes with
  | [] => ""
  | [a] =>
      let n := (a * 65536)%N in
      String (base64_digit (n / 262144))
        (String (base64_digit ((n / 4096) mod 64)) "==")
  | [a; b] =>
      let n := (a * 65536 + b * 256)%N in
      String (base64_digit (n / 262144))
        (String (base64_digit ((n / 4096) mod 64))
           (String (base64_digit ((n / 64) mod 64)) "="))
  | a :: b :: c :: rest =>
      let n := (a * 65536 + b * 256 + c)%N in
      String (base64_digit (n / 262144))
        (String (base64_digit ((n / 4096) mod 64))
           (String (base64_digit ((n / 64) mod 64))
              (String (base64_digit (n mod 64)) (base64_groups rest))))
  end.

Definition base64_encode (text : string) : outcome string :=
  Ret (base64_groups (map N_of_ascii (String.list_ascii_of_string text))).

(** ** Vocabulary for the statements *)

(** The alerts of the screen, by the place that raises them. *)
Definition alert_ble_unavailable : Event :=
  Alert "BLE no disponible"
    (Some "El módulo BLE no está disponible en este entorno. Usa un cliente nativo o un build personalizado.").
Definition alert_permissions : Event :=
  Alert "Permisos" (Some "No se concedieron permisos necesarios para escaneo BLE").
Definition alert_connected (d : Ble.Device) : Event :=
  Alert "Conectado" (Some ("Conectado a " +:+ name_or_id d)).
Definition alert_connect_failed : Event :=
  Alert "Error" (Some "No se pudo conectar").
Definition alert_not_connected : Event :=
  Alert "No conectado" (Some "Conéctate a un dispositivo primero").
Definition alert_sent : Event :=
  Alert "Enviado" (Some "Payload enviado correctamente").
Definition alert_no_characteristic : Event :=
  Alert "No characteristic" (Some "No se encontró característica escribible").
Definition alert_send_failed : Event :=
  Alert "Error" (Some "No se pudo enviar payload").

(** A service whose characteristics can be listed and of which none is
    flagged writable. *)
Definition lists_no_writable (s : Ble.Service) : bool :=
  match Ble.characteristics s with
  | Ret cs => forallb (fun c => negb (writable c)) cs
  | Throw _ => false
  end.

(** What [sendPayload] does once it stands on a writable characteristic
    [c] of [service], when encoding the payload settles to [encoded]. *)
Definition write_and_report (manager : Ble.BleManager) (connected : Ble.Device)
    (service : Ble.Service) (c : Ble.Characteristic) (encoded : outcome string)
  : list Event :=
  match encoded with
  | Ret base64 =>
      WriteCharacteristicWithResponseForDevice
        (Ble.id connected) (Ble.s_uuid service) (Ble.c_uuid c) base64 ::
      match Ble.writeCharacteristicWithResponseForDevice manager
              (Ble.id connected) (Ble.s_uuid service) (Ble.c_uuid c) base64 with
      | Ret _ => [alert_sent]
      | Throw e => [ConsoleWarn None e; alert_send_failed]
      end
  | Throw e => [ConsoleWarn None e; alert_send_failed]
  end.

Definition count_writes (tr : list Event) : nat :=
  length (filter (fun e => is_write e = true) tr).

(** The three permissions [requestAndroidPermissions] asks for. *)
Definition requested_permissions : list string :=
  [PermissionsAndroid.ACCESS_FINE_LOCATION;
   PermissionsAndroid.BLUETOOTH_SCAN;
   PermissionsAndroid.BLUETOOTH_CONNECT].

(** Fine location or Bluetooth scan is granted in the answer [granted] of
    the permission dialog. *)
Definition scan_permission_granted (granted : gmap string string) : bool :=
  bool_decide (granted !! PermissionsAndroid.ACCESS_FINE_LOCATION
               = Some PermissionsAndroid.GRANTED)
  || bool_decide (granted !! PermissionsAndroid.BLUETOOTH_SCAN
                  = Some PermissionsAndroid.GRANTED).

(** What [?.remove()] does on a stored value: the call it makes and how it
    ends. *)
Definition remove_calls (s : option Ble.Subscription) : list Event :=
  match s with
  | Some (Ble.Removable s _) => [SubscriptionRemove s]
  | _ => []
  end.

Definition remove_outcome (s : option Ble.Subscription) : outcome unit :=
  match s with
  | Some (Ble.Removable _ remove) => remove
  | Some Ble.NotRemovable => Throw TypeError
  | None => Ret tt
  end.

(** The calls [stopScan] makes when a manager is present. *)
Definition stop_calls (st : State) : list Event :=
  StopDeviceScan :: remove_calls (scanSubscription st).


(** What holds of the state of a mounted screen. *)
Definition Inv (st : State) : Prop :=
  NoDup (map Ble.id (devices st)) /\
  (managerRef st = None -> connected st = None /\ scanning st = false).

(** No call of the write-without-response operation. *)
Definition not_without_response (e : Event) : bool :=
  match e with
  | WriteCharacteristicWithoutResponseForDevice _ _ _ _ => false
  | _ => true
  end.

(** A computation that never writes the component's state. *)
Definition keeps_state {A} (c : M A) : Prop :=
  forall st, state_of (c st) = st.

(** Every call a computation makes satisfies [P]. *)
Definition emits_only (P : Event -> Prop) {A} (c : M A) : Prop :=
  forall st, Forall P (trace_of (c st)).

(** ** Concrete peripherals and hosts, to run the handlers on *)

Module Demo.

Definition readable (uuid : string) : Ble.Characteristic :=
  {| Ble.c_uuid := uuid; Ble.isWritableWithResponse := false;
     Ble.isWritableWithoutResponse := false |}.

(** Writable without response only. *)
Definition uart_rx : Ble.Characteristic :=
  {| Ble.c_uuid := "ffe3"; Ble.isWritableWithResponse := false;
     Ble.isWritableWithoutResponse := true |}.

Definition ota_control : Ble.Characteristic :=
  {| Ble.c_uuid := "ff01"; Ble.isWritableWithResponse := true;
     Ble.isWritableWithoutResponse := false |}.

Definition generic_access : Ble.Service :=
  {| Ble.s_uuid := "1800";
     Ble.characteristics := Ret [readable "2a00"; readable "2a01"] |}.

(** Its third characteristic is the first writable one of the car. *)
Definition uart : Ble.Service :=
  {| Ble.s_uuid := "ffe0";
     Ble.characteristics := Ret [readable "ffe1"; readable "ffe2"; uart_rx] |}.

Definition ota : Ble.Service :=
  {| Ble.s_uuid := "ff00"; Ble.characteristics := Ret [ota_control] |}.

Definition car : Ble.Device :=
  {| Ble.id := "AA:BB:CC:DD:EE:FF"; Ble.name := Some "MecanumCar";
     Ble.discoverAllServicesAndCharacteristics := Ret tt;
     Ble.services := Ret [generic_access; uart; ota] |}.

(** A peripheral with nothing to write to. *)
Definition beacon : Ble.Device :=
  {| Ble.id := "11:22:33:44:55:66"; Ble.name := None;
     Ble.discoverAllServicesAndCharacteristics := Ret tt;
     Ble.services := Ret [generic_access] |}.

(** A peripheral that accepts the connection and then fails discovery. *)
Definition flaky : Ble.Device :=
  {| Ble.id := "DE:AD:BE:EF:00:01"; Ble.name := Some "";
     Ble.discoverAllServicesAndCharacteristics := Throw (BleError "Device disconnected");
     Ble.services := Throw (BleError "Services not discovered") |}.

(** [startDeviceScan] returns [undefined], as the versions of
    react-native-ble-plx in which it is a plain function do. *)
Definition manager : Ble.BleManager :=
  {| Ble.startDeviceScan := None;
     Ble.connectToDevice := fun deviceId =>
       if bool_decide (deviceId = Ble.id car) then Ret car
       else if bool_decide (deviceId = Ble.id beacon) then Ret beacon
       else if bool_decide (deviceId = Ble.id flaky) then Ret flaky
       else Throw (BleError "Device not found");
     Ble.writeCharacteristicWithResponseForDevice := fun _ _ _ _ => Ret tt |}.

(** Android, the user denies everything. *)
Definition android_denied : Env :=
  {| Platform_OS := "android";
     requestMultiple := fun ps =>
       Ret (list_to_map (map (fun p => (p, PermissionsAndroid.DENIED)) ps)) |}.

(** Android, only Bluetooth scan is granted. *)
Definition android_scan_only : Env :=
  {| Platform_OS := "android";
     requestMultiple := fun ps =>
       Ret (<[PermissionsAndroid.BLUETOOTH_SCAN := PermissionsAndroid.GRANTED]>
              (list_to_map (map (fun p => (p, PermissionsAndroid.DENIED)) ps))) |}.

Definition ios : Env :=
  {| Platform_OS := "ios";
     requestMultiple := fun _ => Throw (PermissionError "not available") |}.

(** A host without the native BLE module: [new BleManager()] throws. *)
Definition no_native_module : outcome Ble.BleManager :=
  Throw (BleError "Native module is not available").

End Demo.

(** ** Concrete screens *)

(** Connected to the car, with the text "F" typed in.  The first writable
    characteristic of the car is the third one of its second service. *)
Definition connected_to_car : State :=
  (run base64_encode [PressConnect Demo.car; ChangeText "F"]
     (mounted (Ret Demo.manager))).1.

Definition connected_to_beacon : State :=
  (run base64_encode [PressConnect Demo.beacon; ChangeText "F"]
     (mounted (Ret Demo.manager))).1.

(** Mounted with a manager, nothing done yet. *)
Definition idle : State := (mounted (Ret Demo.manager)).1.

(** Mounted where the native module is absent. *)
Definition without_ble : State := (mounted Demo.no_native_module).1.

(** A scan in progress (on a host without runtime permission dialogs). *)
Definition scan_in_progress : State :=
  (run base64_encode [StartScan Demo.ios] (mounted (Ret Demo.manager))).1.

(** [startScan] entered twice with no stop in between, the car reported
    three times and the beacon once. *)
Definition scanned_twice : State :=
  (run base64_encode
     [StartScan Demo.ios; ScanEvent None (Some Demo.car);
      StartScan Demo.ios; ScanEvent None (Some Demo.car);
      ScanEvent None (Some Demo.beacon); ScanEvent None (Some Demo.car)]
     (mounted (Ret Demo.manager))).1.

(** Connecting to the car, then pressing the disconnect button. *)
Definition connect_then_disconnect : State * list Event :=
  run base64_encode [PressConnect Demo.car; PressDisconnect]
    (mounted (Ret Demo.manager)).

(** What [connectToDevice] awaits: the connection, then the discovery. *)
Definition connect_and_discover (m : Ble.BleManager) (device : Ble.Device)
  : outcome Ble.Device :=
  match Ble.connectToDevice m (Ble.id device) with
  | Ret d =>
      match Ble.discoverAllServicesAndCharacteristics d with
      | Ret _ => Ret d
      | Throw e => Throw e
      end
  | Throw e => Throw e
  end.

(** ** The rest of the screen: unmounting and the rendered list *)

(** The cleanup of the mount effect.  [destroy] is what
    [manager.destroy()] settles to; the call itself leaves no entry in the
    calls recorded. *)
Definition useEffect_cleanup (destroy : Ble.BleManager -> outcome unit) : M unit :=
  sub <- read scanSubscription ;;
  subscription_remove sub ;;;
  try_catch
    (m <- read managerRef ;;
     match m with
     | Some m => settle (destroy m)
     | None => ret tt
     end)
    (fun _ => ret tt) ;;;
  modify (with_managerRef None).

(** [keyExtractor] of the list and the text of a row ([item.name || item.id]). *)
Definition keyExtractor (item : Ble.Device) : string := Ble.id item.
Definition renderItem_text (item : Ble.Device) : string := name_or_id item.

(** ** Further vocabulary *)

Definition count_alerts (tr : list Event) : nat :=
  length (filter (fun e => is_alert e = true) tr).

(** Alerts and console diagnostics stay inside the app; every other call
    goes to the BLE library or to the OS. *)
Definition is_ble_or_os_call (e : Event) : bool :=
  match e with
  | Alert _ _ | ConsoleWarn _ _ => false
  | _ => true
  end.

(** The kinds of call found in the body of [sendPayload]. *)
Definition sendPayload_call (e : Event) : bool :=
  match e with
  | Alert _ _ | ConsoleWarn _ _ | Services _ | Characteristics _
  | WriteCharacteristicWithResponseForDevice _ _ _ _ => true
  | _ => false
  end.

Definition is_cancel (e : Event) : bool :=
  match e with
  | CancelDeviceConnection _ => true
  | _ => false
  end.

Definition is_connect (e : Event) : bool :=
  match e with
  | ConnectToDevice _ => true
  | _ => false
  end.

(** Actions that cannot enter [startScan]. *)
Definition starts_no_scan (a : Action) : bool :=
  match a with
  | PressScan _ | StartScan _ => false
  | _ => true
  end.

(** How one of the two loops of [sendPayload] ends: having returned after
    one write and one alert, having fallen through with neither, or thrown
    after at most one write and no alert. *)
Definition loop_shape (r : outcome bool * State * list Event) : Prop :=
  match result_of r with
  | Ret true => count_writes (trace_of r) = 1 /\ count_alerts (trace_of r) = 1
  | Ret false => count_writes (trace_of r) = 0 /\ count_alerts (trace_of r) = 0
  | Throw _ => count_writes (trace_of r) <= 1 /\ count_alerts (trace_of r) = 0
  end.

(** Which cells of the state the handler of an action may write. *)
Definition writes_devices (a : Action) : bool :=
  match a with
  | PressScan _ | StartScan _ | ScanEvent _ _ => true
  | _ => false
  end.

Definition writes_scanning (a : Action) : bool :=
  match a with
  | PressScan _ | StartScan _ | StopScan | ScanEvent _ _ | PressConnect _ => true
  | _ => false
  end.

Definition writes_connected (a : Action) : bool :=
  match a with
  | PressConnect _ => true
  | _ => false
  end.

Definition writes_payload (a : Action) : bool :=
  match a with
  | ChangeText _ => true
  | _ => false
  end.

(** The car found, then an error, the beacon, the car again, and two
    events without a usable device. *)
Definition several_discoveries : list Action :=
  [ScanEvent None (Some Demo.car);
   ScanEvent (Some (BleError "Location services are disabled")) (Some Demo.flaky);
   StopScan;
   ScanEvent None (Some Demo.beacon);
   ScanEvent None (Some Demo.car);
   ScanEvent None None;
   ScanEvent None (Some {| Ble.id := ""; Ble.name := Some "nameless";
                           Ble.discoverAllServicesAndCharacteristics := Ret tt;
                           Ble.services := Ret [] |})].

(** ** Peripherals and hosts that fail *)

Module Faults.

(** A manager that connects like [Demo.manager] and rejects every write. *)
Definition read_only_manager : Ble.BleManager :=
  {| Ble.startDeviceScan := None;
     Ble.connectToDevice := Ble.connectToDevice Demo.manager;
     Ble.writeCharacteristicWithResponseForDevice := fun _ _ _ _ =>
       Throw (BleError "Characteristic write failed") |}.

(** A service whose characteristics cannot be listed. *)
Definition broken : Ble.Service :=
  {| Ble.s_uuid := "dead";
     Ble.characteristics := Throw (BleError "Characteristics not discovered") |}.

(** Its writable characteristics come after the broken service. *)
Definition half_broken_car : Ble.Device :=
  {| Ble.id := "AA:BB:CC:DD:EE:00"; Ble.name := Some "HalfCar";
     Ble.discoverAllServicesAndCharacteristics := Ret tt;
     Ble.services := Ret [Demo.generic_access; broken; Demo.uart; Demo.ota] |}.

(** An encoder that refuses every text. *)
Definition refusing_btoa (text : string) : outcome string :=
  Throw InvalidCharacterError.

(** Android, only Bluetooth connect is granted. *)
Definition android_connect_only : Env :=
  {| Platform_OS := "android";
     requestMultiple := fun ps =>
       Ret (<[PermissionsAndroid.BLUETOOTH_CONNECT := PermissionsAndroid.GRANTED]>
              (list_to_map (map (fun p => (p, PermissionsAndroid.DENIED)) ps))) |}.

(** Android, the permission request itself fails. *)
Definition android_request_fails : Env :=
  {| Platform_OS := "android";
     requestMultiple := fun _ => Throw (PermissionError "Tried to use permissions API while not attached to an Activity") |}.

Definition destroy_fails (m : Ble.BleManager) : outcome unit :=
  Throw (BleError "Manager was destroyed").

(** [startDeviceScan] returns a Promise, as the versions of
    react-native-ble-plx in which it is an async function do: a value
    without [remove]. *)
Definition promise_manager : Ble.BleManager :=
  {| Ble.startDeviceScan := Some Ble.NotRemovable;
     Ble.connectToDevice := Ble.connectToDevice Demo.manager;
     Ble.writeCharacteristicWithResponseForDevice :=
       Ble.writeCharacteristicWithResponseForDevice Demo.manager |}.

(** [startDeviceScan] returns an object with a working [remove]. *)
Definition subscribing_manager : Ble.BleManager :=
  {| Ble.startDeviceScan := Some (Ble.Removable 1 (Ret tt));
     Ble.connectToDevice := Ble.connectToDevice Demo.manager;
     Ble.writeCharacteristicWithResponseForDevice :=
       Ble.writeCharacteristicWithResponseForDevice Demo.manager |}.

End Faults.

(** Connected to the car through the manager that rejects writes. *)
Definition connected_read_only : State :=
  (run base64_encode [PressConnect Demo.car; ChangeText "F"]
     (mounted (Ret Faults.read_only_manager))).1.

(** A scan in progress where [startDeviceScan] returned a Promise. *)
Definition scan_in_progress_promise : State :=
  (run base64_encode [StartScan Demo.ios; ScanEvent None (Some Demo.car)]
     (mounted (Ret Faults.promise_manager))).1.

(** A scan in progress where [startDeviceScan] returned a subscription. *)
Definition scan_in_progress_subscribed : State :=
  (run base64_encode [StartScan Demo.ios] (mounted (Ret Faults.subscribing_manager))).1.

(** The screen holding a device whose services cannot be listed. *)
Definition connected_to_flaky : State := with_connected (Some Demo.flaky) idle.

Definition connected_to_half_broken : State :=
  with_payload "F" (with_connected (Some Faults.half_broken_car) idle).

(** * Properties *)

Example base64_encode_F : base64_encode "F" = Ret "Rg==".
Proof. reflexivity. Qed.

Example base64_encode_hello : base64_encode "hello!" = Ret "aGVsbG8h".
Proof. reflexivity. Qed.

(** ** Laws of the handler monad *)

Lemma bind_read {A B} (f : State -> A) (k : A -> M B) (st : State) :
  bind (read f) k st = k (f st) st.
Proof. unfold bind, read. by destruct (k (f st) st) as [[r st2] tr2]. Qed.

Lemma keeps_ret {A} (a : A) : keeps_state (ret a).
Proof. done. Qed.

Lemma keeps_emit (e : Event) : keeps_state (emit e).
Proof. done. Qed.

Lemma keeps_settle {A} (o : outcome A) : keeps_state (settle o).
Proof. done. Qed.

Lemma keeps_read {A} (f : State -> A) : keeps_state (read f).
Proof. done. Qed.

Lemma keeps_throw {A} (e : exn) : keeps_state (@throw A e).
Proof. done. Qed.

Lemma keeps_bind {A B} (c : M A) (k : A -> M B) :
  keeps_state c -> (forall a, keeps_state (k a)) -> keeps_state (bind c k).
Proof.
  intros Hc Hk st. unfold bind. specialize (Hc st).
  destruct (c st) as [[[a|e] st1] tr1]; cbn in Hc; subst st1; [|done].
  specialize (Hk a st). by destruct (k a st) as [[r st2] tr2].
Qed.

Lemma keeps_try_catch {A} (body : M A) (h : exn -> M A) :
  keeps_state body -> (forall e, keeps_state (h e)) -> keeps_state (try_catch body h).
Proof.
  intros Hb Hh st. unfold try_catch. specialize (Hb st).
  destruct (body st) as [[[a|e] st1] tr1]; cbn in Hb; subst st1; [done|].
  specialize (Hh e st). by destruct (h e st) as [[r st2] tr2].
Qed.

Create HintDb keeps.
#[local] Hint Resolve keeps_ret keeps_emit keeps_settle keeps_read keeps_throw : keeps.
#[local] Hint Extern 2 (keeps_state (bind _ _)) => apply keeps_bind; [|intros ?] : keeps.
#[local] Hint Extern 2 (keeps_state (try_catch _ _)) =>
  apply keeps_try_catch; [|intros ?] : keeps.
#[local] Hint Extern 3 (keeps_state (match ?x with _ => _ end)) => destruct x : keeps.
#[local] Hint Extern 3 (keeps_state (if ?x then _ else _)) => destruct x : keeps.

Ltac keeps :=
  repeat first
    [ progress (unfold Alert_alert, console_warn, device_services,
                service_characteristics,
                manager_writeCharacteristicWithResponseForDevice,
                manager_cancelDeviceConnection, manager_stopDeviceScan,
                manager_connectToDevice, manager_startDeviceScan,
                device_discoverAllServicesAndCharacteristics,
                PermissionsAndroid_requestMultiple, subscription_remove, unbound)
    | solve [auto 20 with keeps] ].

Lemma keeps_ensureManager : keeps_state ensureManager.
Proof. unfold ensureManager. keeps. Qed.

Section SendPayloadFacts.

Variable btoa : string -> outcome string.

Lemma keeps_for_characteristics manager connected payload service cs :
  keeps_state (for_characteristics btoa manager connected payload service cs).
Proof.
  induction cs as [|c cs IH]; cbn [for_characteristics]; [keeps|].
  destruct (_ || _); [keeps | exact IH].
Qed.

Lemma keeps_for_services manager connected payload ss :
  keeps_state (for_services btoa manager connected payload ss).
Proof.
  induction ss as [|s ss IH]; cbn [for_services]; [keeps|].
  apply keeps_bind; [keeps|intros cs].
  apply keeps_bind; [apply keeps_for_characteristics|intros [|]]; [keeps|exact IH].
Qed.

Lemma keeps_sendPayload : keeps_state (sendPayload btoa).
Proof.
  unfold sendPayload.
  apply keeps_bind; [apply keeps_ensureManager|intros [m|]]; [|keeps].
  apply keeps_bind; [keeps|intros [d|]]; [|keeps].
  apply keeps_bind; [keeps|intros p].
  apply keeps_try_catch; [|intros e; keeps].
  apply keeps_bind; [keeps|intros ss].
  apply keeps_bind; [apply keeps_for_services|intros [|]]; keeps.
Qed.

End SendPayloadFacts.

(** ** The two loops of sendPayload *)

Section SendPayloadTrace.

Variable btoa : string -> outcome string.
Variables (manager : Ble.BleManager) (dev : Ble.Device) (text : string).

Lemma for_characteristics_none service cs st :
  forallb (fun c => negb (writable c)) cs = true ->
  for_characteristics btoa manager dev text service cs st = (Ret false, st, []).
Proof.
  induction cs as [|c cs IH]; cbn [for_characteristics forallb]; [done|].
  intros [Hc Hcs]%andb_prop. unfold writable in Hc.
  destruct (_ || _); [done|]. by apply IH.
Qed.

Lemma for_characteristics_first service cpre c cpost st :
  forallb (fun c => negb (writable c)) cpre = true ->
  writable c = true ->
  for_characteristics btoa manager dev text service (cpre ++ c :: cpost) st =
  match btoa text with
  | Ret base64 =>
      match Ble.writeCharacteristicWithResponseForDevice manager
              (Ble.id dev) (Ble.s_uuid service) (Ble.c_uuid c) base64 with
      | Ret _ =>
          (Ret true, st,
           [WriteCharacteristicWithResponseForDevice
              (Ble.id dev) (Ble.s_uuid service) (Ble.c_uuid c) base64; alert_sent])
      | Throw e =>
          (Throw e, st,
           [WriteCharacteristicWithResponseForDevice
              (Ble.id dev) (Ble.s_uuid service) (Ble.c_uuid c) base64])
      end
  | Throw e => (Throw e, st, [])
  end.
Proof.
  intros Hpre Hc.
  induction cpre as [|c0 cpre IH]; cbn [app for_characteristics forallb] in *.
  - unfold writable in Hc. rewrite Hc.
    unfold manager_writeCharacteristicWithResponseForDevice, Alert_alert,
      bind, settle, emit, ret.
    destruct (btoa text) as [b|e]; [|done].
    by destruct (Ble.writeCharacteristicWithResponseForDevice _ _ _ _ _) as [[]|e].
  - apply andb_prop in Hpre as [Hc0 Hpre]. unfold writable in Hc0.
    destruct (_ || _); [done|]. by apply IH.
Qed.

Lemma for_services_none ss st :
  forallb lists_no_writable ss = true ->
  for_services btoa manager dev text ss st =
  (Ret false, st, map (fun s => Characteristics (Ble.s_uuid s)) ss).
Proof.
  induction ss as [|s ss IH]; cbn [for_services forallb map]; [done|].
  intros [Hs Hss]%andb_prop. unfold lists_no_writable in Hs.
  destruct (Ble.characteristics s) as [cs|e] eqn:Hcs; [|done].
  unfold service_characteristics, bind at 1 2, emit, settle. rewrite Hcs.
  unfold bind. rewrite (for_characteristics_none _ _ _ Hs), (IH Hss). done.
Qed.

Lemma for_services_first pre s post cpre c cpost st :
  forallb lists_no_writable pre = true ->
  Ble.characteristics s = Ret (cpre ++ c :: cpost) ->
  forallb (fun c => negb (writable c)) cpre = true ->
  writable c = true ->
  for_services btoa manager dev text (pre ++ s :: post) st =
  match for_characteristics btoa manager dev text s (cpre ++ c :: cpost) st with
  | (Ret _, _, tr) =>
      (Ret true, st,
       map (fun s => Characteristics (Ble.s_uuid s)) (pre ++ [s]) ++ tr)
  | (Throw e, _, tr) =>
      (Throw e, st,
       map (fun s => Characteristics (Ble.s_uuid s)) (pre ++ [s]) ++ tr)
  end.
Proof.
  intros Hpre Hs Hcpre Hc.
  induction pre as [|s0 pre IH]; cbn [app for_services forallb map] in *.
  - unfold service_characteristics, bind at 1 2, emit, settle. rewrite Hs.
    rewrite (for_characteristics_first s cpre c cpost st Hcpre Hc).
    unfold bind. rewrite (for_characteristics_first s cpre c cpost st Hcpre Hc).
    destruct (btoa text) as [b|e]; [|done].
    by destruct (Ble.writeCharacteristicWithResponseForDevice _ _ _ _ _) as [[]|e].
  - apply andb_prop in Hpre as [Hs0 Hpre]. unfold lists_no_writable in Hs0.
    destruct (Ble.characteristics s0) as [cs|e] eqn:Hcs; [|done].
    unfold service_characteristics, bind at 1 2, emit, settle. rewrite Hcs.
    unfold bind. rewrite (for_characteristics_none _ _ _ Hs0), (IH Hpre).
    by destruct (for_characteristics _ _ _ _ _ _ _) as [[[?|?] ?] ?].
Qed.

End SendPayloadTrace.

(** ** sendPayload, case by case *)

Section SendPayloadCases.

Variable btoa : string -> outcome string.

Lemma ensureManager_some st m :
  managerRef st = Some m -> ensureManager st = (Ret (Some m), st, []).
Proof.
  intros Hm. unfold ensureManager, bind, read, ret. cbn.
  rewrite Hm. cbn. by rewrite Hm.
Qed.

Lemma ensureManager_none st :
  managerRef st = None -> ensureManager st = (Ret None, st, [alert_ble_unavailable]).
Proof.
  intros Hm. unfold ensureManager, bind, read, Alert_alert, emit. cbn.
  rewrite Hm. cbn. by rewrite Hm.
Qed.

Lemma sendPayload_unavailable st :
  managerRef st = None ->
  sendPayload btoa st = (Ret tt, st, [alert_ble_unavailable]).
Proof.
  intros Hm. unfold sendPayload, bind at 1. by rewrite (ensureManager_none _ Hm).
Qed.

Lemma sendPayload_not_connected st m :
  managerRef st = Some m -> connected st = None ->
  sendPayload btoa st = (Ret tt, st, [alert_not_connected]).
Proof.
  intros Hm Hc. unfold sendPayload, bind at 1. rewrite (ensureManager_some _ _ Hm).
  unfold bind, read, Alert_alert, emit. cbn. by rewrite Hc.
Qed.

Lemma sendPayload_connected st m d :
  managerRef st = Some m -> connected st = Some d ->
  sendPayload btoa st =
  try_catch
    (services <- device_services d ;;
     returned <- for_services btoa m d (payload st) services ;;
     if returned : bool then ret tt
     else Alert_alert "No characteristic"
            (Some "No se encontró característica escribible"))
    (fun err =>
       console_warn None err ;;;
       Alert_alert "Error" (Some "No se pudo enviar payload")) st.
Proof.
  intros Hm Hc. unfold sendPayload, bind at 1. rewrite (ensureManager_some _ _ Hm).
  rewrite bind_read, Hc, bind_read. cbn [app].
  by destruct (try_catch _ _ st) as [[? ?] ?].
Qed.

Lemma sendPayload_services_fail st m d e :
  managerRef st = Some m -> connected st = Some d ->
  Ble.services d = Throw e ->
  sendPayload btoa st =
  (Ret tt, st, [Services (Ble.id d); ConsoleWarn None e; alert_send_failed]).
Proof.
  intros Hm Hc Hs. rewrite (sendPayload_connected _ _ _ Hm Hc).
  unfold try_catch, device_services, bind at 1 2, emit, settle. by rewrite Hs.
Qed.

Lemma sendPayload_no_writable st m d ss :
  managerRef st = Some m -> connected st = Some d ->
  Ble.services d = Ret ss ->
  forallb lists_no_writable ss = true ->
  sendPayload btoa st =
  (Ret tt, st,
   Services (Ble.id d) :: map (fun s => Characteristics (Ble.s_uuid s)) ss
     ++ [alert_no_characteristic]).
Proof.
  intros Hm Hc Hs Hss. rewrite (sendPayload_connected _ _ _ Hm Hc).
  unfold try_catch, device_services, bind at 1 2, emit, settle. rewrite Hs.
  unfold bind. by rewrite (for_services_none btoa m d _ ss st Hss).
Qed.

Lemma sendPayload_first_writable st m d pre s post cpre c cpost :
  managerRef st = Some m -> connected st = Some d ->
  Ble.services d = Ret (pre ++ s :: post) ->
  forallb lists_no_writable pre = true ->
  Ble.characteristics s = Ret (cpre ++ c :: cpost) ->
  forallb (fun c => negb (writable c)) cpre = true ->
  writable c = true ->
  sendPayload btoa st =
  (Ret tt, st,
   Services (Ble.id d) :: map (fun s => Characteristics (Ble.s_uuid s)) (pre ++ [s])
     ++ write_and_report m d s c (btoa (payload st))).
Proof.
  intros Hm Hc Hs Hpre Hcs Hcpre Hw. rewrite (sendPayload_connected _ _ _ Hm Hc).
  unfold try_catch, device_services, bind at 1 2, emit, settle. rewrite Hs.
  unfold bind.
  rewrite (for_services_first btoa m d _ pre s post cpre c cpost st Hpre Hcs Hcpre Hw).
  rewrite (for_characteristics_first btoa m d _ s cpre c cpost st Hcpre Hw).
  unfold write_and_report.
  destruct (btoa (payload st)) as [b|e]; cbn.
  - destruct (Ble.writeCharacteristicWithResponseForDevice _ _ _ _ _) as [[]|e]; cbn.
    + by rewrite <- !app_assoc.
    + by rewrite <- !app_assoc.
  - by rewrite app_nil_r.
Qed.

End SendPayloadCases.

(** ** The scan and connect handlers, case by case *)

Lemma requestAndroidPermissions_other env st :
  Platform_OS env <> "android" ->
  requestAndroidPermissions env st = (Ret true, st, []).
Proof.
  intros Hos. unfold requestAndroidPermissions. by rewrite bool_decide_eq_true_2.
Qed.

Lemma requestAndroidPermissions_android env st :
  Platform_OS env = "android" ->
  requestAndroidPermissions env st =
  (Ret match requestMultiple env requested_permissions with
       | Ret granted => scan_permission_granted granted
       | Throw _ => false
       end,
   st, [RequestMultiple requested_permissions]).
Proof.
  intros Hos. unfold requestAndroidPermissions.
  rewrite bool_decide_eq_false_2 by (by intros []).
  unfold try_catch, PermissionsAndroid_requestMultiple, bind, emit, settle, ret.
  fold requested_permissions. cbn.
  by destruct (requestMultiple env requested_permissions).
Qed.

Lemma keeps_requestAndroidPermissions env : keeps_state (requestAndroidPermissions env).
Proof.
  intros st. destruct (decide (Platform_OS env = "android")) as [Hos|Hos].
  - by rewrite requestAndroidPermissions_android.
  - by rewrite requestAndroidPermissions_other.
Qed.

Lemma requestAndroidPermissions_returns env st :
  exists ok, result_of (requestAndroidPermissions env st) = Ret ok.
Proof.
  destruct (decide (Platform_OS env = "android")) as [Hos|Hos].
  - rewrite requestAndroidPermissions_android by done. by eexists.
  - rewrite requestAndroidPermissions_other by done. by eexists.
Qed.

Lemma startScan_unavailable env st :
  managerRef st = None ->
  startScan env st = (Ret tt, st, [alert_ble_unavailable]).
Proof.
  intros Hm. unfold startScan, bind at 1. by rewrite (ensureManager_none _ Hm).
Qed.

Lemma startScan_available env st m :
  managerRef st = Some m ->
  startScan env st =
  match result_of (requestAndroidPermissions env st) with
  | Ret true =>
      (Ret tt,
       with_scanSubscription (Ble.startDeviceScan m)
         (with_scanning true (with_devices (fun _ => []) st)),
       trace_of (requestAndroidPermissions env st) ++ [StartDeviceScan])
  | _ =>
      (Ret tt, st,
       trace_of (requestAndroidPermissions env st) ++ [alert_permissions])
  end.
Proof.
  intros Hm. unfold startScan, bind at 1. rewrite (ensureManager_some _ _ Hm).
  cbn [app]. unfold bind at 1.
  pose proof (keeps_requestAndroidPermissions env st) as Hst.
  destruct (requestAndroidPermissions_returns env st) as [ok Hok].
  destruct (requestAndroidPermissions env st) as [[r st1] tr1].
  cbn in Hst, Hok |- *. subst st1 r.
  by destruct ok.
Qed.

Lemma stopScan_unavailable st :
  managerRef st = None -> stopScan st = (Ret tt, st, []).
Proof. intros Hm. unfold stopScan, bind, read. cbn. by rewrite Hm. Qed.

Lemma subscription_remove_eq s st :
  subscription_remove s st = (remove_outcome s, st, remove_calls s).
Proof.
  destruct s as [[s [[]|e]| ]|]; reflexivity.
Qed.

Lemma stopScan_available st m :
  managerRef st = Some m ->
  stopScan st =
  (remove_outcome (scanSubscription st), with_scanning false st, stop_calls st).
Proof.
  intros Hm. unfold stopScan. rewrite bind_read, Hm.
  unfold manager_stopDeviceScan, setScanning, modify, emit, bind at 1 2.
  rewrite bind_read, subscription_remove_eq.
  by destruct (remove_outcome _).
Qed.

Lemma connectToDevice_unavailable device st :
  managerRef st = None ->
  connectToDevice device st = (Ret tt, st, [alert_ble_unavailable]).
Proof.
  intros Hm. unfold connectToDevice, bind at 1. by rewrite (ensureManager_none _ Hm).
Qed.

Lemma connectToDevice_available device st m :
  managerRef st = Some m ->
  remove_outcome (scanSubscription st) = Ret tt ->
  connectToDevice device st =
  match Ble.connectToDevice m (Ble.id device) with
  | Ret d =>
      match Ble.discoverAllServicesAndCharacteristics d with
      | Ret _ =>
          (Ret tt, with_connected (Some d) (with_scanning false st),
           stop_calls st ++
           [ConnectToDevice (Ble.id device);
            DiscoverAllServicesAndCharacteristics (Ble.id d);
            alert_connected d])
      | Throw e =>
          (Ret tt, with_scanning false st,
           stop_calls st ++
           [ConnectToDevice (Ble.id device);
            DiscoverAllServicesAndCharacteristics (Ble.id d);
            ConsoleWarn None e; alert_connect_failed])
      end
  | Throw e =>
      (Ret tt, with_scanning false st,
       stop_calls st ++
       [ConnectToDevice (Ble.id device); ConsoleWarn None e; alert_connect_failed])
  end.
Proof.
  intros Hm Hremove.
  unfold connectToDevice, bind at 1. rewrite (ensureManager_some _ _ Hm).
  cbn [app]. unfold try_catch, bind at 1.
  rewrite (stopScan_available _ _ Hm), Hremove.
  unfold manager_connectToDevice, device_discoverAllServicesAndCharacteristics,
    setConnected, Alert_alert, console_warn, bind, emit, settle, modify. cbn.
  destruct (Ble.connectToDevice m (Ble.id device)) as [d|e]; cbn.
  - destruct (Ble.discoverAllServicesAndCharacteristics d) as [[]|e]; cbn.
    + by rewrite ?app_nil_r, <- ?app_assoc.
    + by rewrite ?app_nil_r, <- ?app_assoc.
  - by rewrite ?app_nil_r, <- ?app_assoc.
Qed.

Lemma connectToDevice_stop_throws device st m e :
  managerRef st = Some m ->
  remove_outcome (scanSubscription st) = Throw e ->
  connectToDevice device st =
  (Ret tt, with_scanning false st,
   stop_calls st ++ [ConsoleWarn None e; alert_connect_failed]).
Proof.
  intros Hm Hremove.
  unfold connectToDevice, bind at 1. rewrite (ensureManager_some _ _ Hm).
  cbn [app]. unfold try_catch, bind at 1.
  rewrite (stopScan_available _ _ Hm), Hremove.
  unfold Alert_alert, console_warn, bind, emit. cbn.
  by rewrite ?app_nil_r.
Qed.

Lemma connectToDevice_with_manager device st m :
  managerRef st = Some m ->
  connectToDevice device st =
  match remove_outcome (scanSubscription st) with
  | Ret _ =>
      match Ble.connectToDevice m (Ble.id device) with
      | Ret d =>
          match Ble.discoverAllServicesAndCharacteristics d with
          | Ret _ =>
              (Ret tt, with_connected (Some d) (with_scanning false st),
               stop_calls st ++
               [ConnectToDevice (Ble.id device);
                DiscoverAllServicesAndCharacteristics (Ble.id d);
                alert_connected d])
          | Throw e =>
              (Ret tt, with_scanning false st,
               stop_calls st ++
               [ConnectToDevice (Ble.id device);
                DiscoverAllServicesAndCharacteristics (Ble.id d);
                ConsoleWarn None e; alert_connect_failed])
          end
      | Throw e =>
          (Ret tt, with_scanning false st,
           stop_calls st ++
           [ConnectToDevice (Ble.id device); ConsoleWarn None e;
            alert_connect_failed])
      end
  | Throw e =>
      (Ret tt, with_scanning false st,
       stop_calls st ++ [ConsoleWarn None e; alert_connect_failed])
  end.
Proof.
  intros Hm. destruct (remove_outcome (scanSubscription st)) as [[]|e] eqn:Hremove.
  - by apply (connectToDevice_available device st m).
  - by apply (connectToDevice_stop_throws device st m).
Qed.

Lemma onPressDisconnect_connected st d :
  connected st = Some d ->
  onPressDisconnect st = (Throw (ReferenceError "manager"), st, []).
Proof. intros Hc. unfold onPressDisconnect, bind, read. cbn. by rewrite Hc. Qed.

Lemma onPressDisconnect_idle st :
  connected st = None -> onPressDisconnect st = (Ret tt, st, []).
Proof. intros Hc. unfold onPressDisconnect, bind, read. cbn. by rewrite Hc. Qed.

Lemma scanListener_error err device st :
  scanListener (Some err) device st =
  (Ret tt, with_scanning false st, [ConsoleWarn (Some "Scan error") err]).
Proof. reflexivity. Qed.

Lemma find_by_id (x : string) (l : list Ble.Device) :
  is_Some (List.find (fun d => bool_decide (Ble.id d = x)) l) <-> x ∈ map Ble.id l.
Proof.
  induction l as [|d ds IH]; cbn [List.find map].
  - split; [by intros [? ?]|by intros ?%elem_of_nil].
  - case_bool_decide as Hd.
    + split; [|by eauto]. intros _. rewrite Hd. apply list_elem_of_here.
    + rewrite IH, elem_of_cons. split; [by right|]. intros [?|?]; [congruence|done].
Qed.

Lemma scanListener_device device st :
  Ble.id device <> "" ->
  scanListener None (Some device) st =
  (Ret tt,
   with_devices (fun prev =>
     if bool_decide (Ble.id device ∈ map Ble.id prev) then prev
     else prev ++ [device]) st,
   []).
Proof.
  intros Hid. unfold scanListener. rewrite bool_decide_eq_true_2 by done.
  unfold setDevices, modify, with_devices. do 3 f_equal.
  pose proof (find_by_id (Ble.id device) (devices st)) as Hfind.
  destruct (List.find _ (devices st)) as [d'|].
  - rewrite bool_decide_eq_true_2; [done|]. apply Hfind. by eexists.
  - rewrite bool_decide_eq_false_2; [done|]. intros Hin%Hfind. by destruct Hin.
Qed.

Lemma scanListener_nothing device st :
  (device = None \/ exists d, device = Some d /\ Ble.id d = "") ->
  scanListener None device st = (Ret tt, st, []).
Proof.
  intros [->|(d & -> & Hid)]; [done|].
  unfold scanListener. by rewrite bool_decide_eq_false_2 by (by intros []).
Qed.

(** ** What every reachable state satisfies *)

Section Reachable.

Variable btoa : string -> outcome string.

Lemma Inv_mounted new_BleManager : Inv (mounted new_BleManager).1.
Proof.
  unfold mounted, useEffect_mount, try_catch, bind, settle, modify.
  destruct new_BleManager as [m|e]; cbn; (split; [constructor|done]).
Qed.

Lemma Inv_handler a st : Inv st -> Inv (state_of (handler btoa a st)).
Proof.
  intros HInv. pose proof HInv as [Hnd Hm].
  assert (forall m, managerRef st = Some m -> Inv (with_scanning false st)) as Hstop.
  { intros m Hmgr. split; [done|]. cbn. by rewrite Hmgr. }
  assert (forall env, Inv (state_of (startScan env st))) as Hstart.
  { intros env. destruct (managerRef st) as [m|] eqn:Hmgr.
    - rewrite (startScan_available _ _ _ Hmgr).
      destruct (result_of _) as [[|]|]; cbn; [|exact HInv..].
      split; [constructor|]. cbn. by rewrite Hmgr.
    - rewrite (startScan_unavailable _ _ Hmgr). exact HInv. }
  assert (Inv (state_of (stopScan st))) as Hstopped.
  { destruct (managerRef st) as [m|] eqn:Hmgr.
    - rewrite (stopScan_available _ _ Hmgr). by eapply Hstop.
    - rewrite (stopScan_unavailable _ Hmgr). exact HInv. }
  destruct a as [env|env| |err device|device| |text| ]; cbn [handler].
  - unfold onPressScan. rewrite bind_read. by destruct (scanning st).
  - done.
  - done.
  - (* the scan listener *)
    destruct err as [err|].
    { rewrite scanListener_error. split; [done|]. intros H. by destruct (Hm H). }
    destruct device as [device|];
      [|rewrite scanListener_nothing by eauto; exact HInv].
    destruct (decide (Ble.id device = "")) as [Hid|Hid];
      [rewrite scanListener_nothing by eauto; exact HInv|].
    rewrite (scanListener_device _ _ Hid). split; [|done]. cbn.
    case_bool_decide as Hin; [done|].
    rewrite map_app. apply NoDup_app. split_and!; [done| |apply NoDup_singleton].
    intros x Hx ->%list_elem_of_singleton. done.
  - destruct (managerRef st) as [m|] eqn:Hmgr.
    + rewrite (connectToDevice_with_manager _ _ _ Hmgr).
      destruct (remove_outcome _) as [[]|e0];
        [destruct (Ble.connectToDevice m _) as [d|e];
         [destruct (Ble.discoverAllServicesAndCharacteristics d) as [[]|e]|]|];
        cbn; (split; [done|cbn; by rewrite Hmgr]).
    + rewrite (connectToDevice_unavailable _ _ Hmgr). exact HInv.
  - destruct (connected st) as [d|] eqn:Hc.
    + rewrite (onPressDisconnect_connected _ _ Hc). exact HInv.
    + rewrite (onPressDisconnect_idle _ Hc). exact HInv.
  - exact HInv.
  - by rewrite (keeps_sendPayload btoa st).
Qed.

Lemma Inv_run acts w : Inv w.1 -> Inv (run btoa acts w).1.
Proof.
  revert w. induction acts as [|a acts IH]; intros w Hw; cbn [run]; [done|].
  pose proof (Inv_handler a _ Hw) as Hstep.
  destruct (handler btoa a w.1) as [[r st'] tr]. by apply IH.
Qed.

Lemma reachable_Inv st : reachable btoa st -> Inv st.
Proof. intros (mk & acts & <-). apply Inv_run, Inv_mounted. Qed.

Lemma reachable_connected_manager st d :
  reachable btoa st -> connected st = Some d ->
  exists m, managerRef st = Some m.
Proof.
  intros [_ Hm]%reachable_Inv Hc. destruct (managerRef st) as [m|]; [by eexists|].
  destruct (Hm eq_refl) as [Hnone _]. congruence.
Qed.

End Reachable.

(** ** Which calls a handler can make *)

Lemma emits_ret P {A} (a : A) : emits_only P (ret a).
Proof. intros st. constructor. Qed.

Lemma emits_settle P {A} (o : outcome A) : emits_only P (settle o).
Proof. intros st. constructor. Qed.

Lemma emits_read P {A} (f : State -> A) : emits_only P (read f).
Proof. intros st. constructor. Qed.

Lemma emits_emit (P : Event -> Prop) e : P e -> emits_only P (emit e).
Proof. intros He st. by repeat constructor. Qed.

Lemma emits_bind P {A B} (c : M A) (k : A -> M B) :
  emits_only P c -> (forall a, emits_only P (k a)) -> emits_only P (bind c k).
Proof.
  intros Hc Hk st. unfold bind. specialize (Hc st).
  destruct (c st) as [[[a|e] st1] tr1]; [|done].
  specialize (Hk a st1). destruct (k a st1) as [[r st2] tr2].
  by apply Forall_app.
Qed.

Lemma emits_try_catch P {A} (body : M A) (h : exn -> M A) :
  emits_only P body -> (forall e, emits_only P (h e)) -> emits_only P (try_catch body h).
Proof.
  intros Hb Hh st. unfold try_catch. specialize (Hb st).
  destruct (body st) as [[[a|e] st1] tr1]; [done|].
  specialize (Hh e st1). destruct (h e st1) as [[r st2] tr2].
  by apply Forall_app.
Qed.

Section NeverWithoutResponse.

Variable btoa : string -> outcome string.

Local Abbreviation ok := (fun e => not_without_response e = true).

Local Ltac emits :=
  repeat first
    [ apply emits_ret | apply emits_settle | apply emits_read
    | apply emits_emit; reflexivity
    | apply emits_bind; [|intros ?]
    | apply emits_try_catch; [|intros ?] ].

Lemma for_characteristics_emits manager connected payload service cs :
  emits_only ok (for_characteristics btoa manager connected payload service cs).
Proof.
  induction cs as [|c cs IH]; cbn [for_characteristics]; [emits|].
  destruct (_ || _); [|exact IH].
  unfold manager_writeCharacteristicWithResponseForDevice, Alert_alert. emits.
Qed.

Lemma for_services_emits manager connected payload ss :
  emits_only ok (for_services btoa manager connected payload ss).
Proof.
  induction ss as [|s ss IH]; cbn [for_services]; [emits|].
  unfold service_characteristics. emits.
  - apply for_characteristics_emits.
  - match goal with |- context [if ?b then _ else _] => destruct b end;
      [emits|exact IH].
Qed.

Lemma sendPayload_emits : emits_only ok (sendPayload btoa).
Proof.
  unfold sendPayload, ensureManager, Alert_alert, console_warn, device_services.
  apply emits_bind.
  { emits. match goal with |- context [match ?m with _ => _ end] => destruct m end; emits. }
  intros [m|]; [|emits].
  apply emits_bind; [emits|]. intros [d|]; [|emits].
  emits.
  - apply for_services_emits.
  - match goal with |- context [if ?b then _ else _] => destruct b end; emits.
Qed.

End NeverWithoutResponse.

Lemma count_writes_app tr1 tr2 :
  count_writes (tr1 ++ tr2) = count_writes tr1 + count_writes tr2.
Proof. unfold count_writes. by rewrite filter_app, length_app. Qed.

Lemma count_writes_characteristics (ss : list Ble.Service) :
  count_writes (map (fun s => Characteristics (Ble.s_uuid s)) ss) = 0.
Proof. induction ss as [|s ss IH]; [done|]. exact IH. Qed.

Lemma filter_writes_characteristics (ss : list Ble.Service) :
  filter (fun e => is_write e = true)
    (map (fun s => Characteristics (Ble.s_uuid s)) ss) = [].
Proof. induction ss as [|s ss IH]; [done|]. exact IH. Qed.

(** * The claims *)

(** ** Sending a payload *)

(** C1. On a mounted screen connected to a device, when the services can be
    listed up to the first characteristic flagged writable (with or
    without response) and the payload text encodes, [sendPayload] lists
    the services, then the characteristics of each service in order up to
    and including the service of that characteristic, writes the encoded
    payload to that characteristic, reports, and returns: the write is the
    only one, and no later characteristic or service is looked at. *)
Theorem sendPayload_writes_first_writable
    (btoa : string -> outcome string) (st : State) (d : Ble.Device)
    (pre : list Ble.Service) (s : Ble.Service) (post : list Ble.Service)
    (cpre : list Ble.Characteristic) (c : Ble.Characteristic)
    (cpost : list Ble.Characteristic) (base64 : string) :
  reachable btoa st ->
  connected st = Some d ->
  Ble.services d = Ret (pre ++ s :: post) ->
  forallb lists_no_writable pre = true ->
  Ble.characteristics s = Ret (cpre ++ c :: cpost) ->
  forallb (fun c => negb (writable c)) cpre = true ->
  writable c = true ->
  btoa (payload st) = Ret base64 ->
  exists m report,
    managerRef st = Some m /\
    sendPayload btoa st =
      (Ret tt, st,
       Services (Ble.id d)
         :: map (fun s => Characteristics (Ble.s_uuid s)) (pre ++ [s])
         ++ WriteCharacteristicWithResponseForDevice
              (Ble.id d) (Ble.s_uuid s) (Ble.c_uuid c) base64
         :: report) /\
    report =
      match Ble.writeCharacteristicWithResponseForDevice m
              (Ble.id d) (Ble.s_uuid s) (Ble.c_uuid c) base64 with
      | Ret _ => [alert_sent]
      | Throw e => [ConsoleWarn None e; alert_send_failed]
      end /\
    count_writes (trace_of (sendPayload btoa st)) = 1.
Proof.
  intros Hreach Hc Hs Hpre Hcs Hcpre Hw Hb.
  destruct (reachable_connected_manager btoa st d Hreach Hc) as [m Hm].
  pose proof (sendPayload_first_writable btoa st m d pre s post cpre c cpost
                Hm Hc Hs Hpre Hcs Hcpre Hw) as Hsend.
  rewrite Hb in Hsend. cbn [write_and_report] in Hsend.
  exists m. eexists. split_and!; [done|exact Hsend|done|].
  rewrite Hsend. unfold trace_of. cbn [snd].
  change (?x :: ?l ++ ?r) with ([x] ++ l ++ r).
  rewrite !count_writes_app, count_writes_characteristics.
  by destruct (Ble.writeCharacteristicWithResponseForDevice _ _ _ _ _).
Qed.

Lemma sendPayload_writes_first_writable_witness :
  sendPayload base64_encode connected_to_car =
  (Ret tt, connected_to_car,
   [Services "AA:BB:CC:DD:EE:FF"; Characteristics "1800"; Characteristics "ffe0";
    WriteCharacteristicWithResponseForDevice "AA:BB:CC:DD:EE:FF" "ffe0" "ffe3" "Rg==";
    alert_sent]).
Proof.
  destruct (sendPayload_writes_first_writable base64_encode connected_to_car
              Demo.car [Demo.generic_access] Demo.uart [Demo.ota]
              [Demo.readable "ffe1"; Demo.readable "ffe2"] Demo.uart_rx [] "Rg==")
    as (m & report & Hm & Hsend & Hreport & _).
  - exists (Ret Demo.manager), [PressConnect Demo.car; ChangeText "F"]. reflexivity.
  - reflexivity.
  - reflexivity.
  - reflexivity.
  - reflexivity.
  - reflexivity.
  - reflexivity.
  - reflexivity.
  - injection Hm as <-. rewrite Hsend, Hreport. reflexivity.
Defined.

(** C3. On a mounted screen connected to a device all of whose services
    can be listed and hold no characteristic flagged writable,
    [sendPayload] lists every service, writes nothing, and raises the
    "no writable characteristic" alert. *)
Theorem sendPayload_nothing_writable
    (btoa : string -> outcome string) (st : State) (d : Ble.Device)
    (ss : list Ble.Service) :
  reachable btoa st ->
  connected st = Some d ->
  Ble.services d = Ret ss ->
  forallb lists_no_writable ss = true ->
  sendPayload btoa st =
    (Ret tt, st,
     Services (Ble.id d) :: map (fun s => Characteristics (Ble.s_uuid s)) ss
       ++ [alert_no_characteristic]) /\
  count_writes (trace_of (sendPayload btoa st)) = 0.
Proof.
  intros Hreach Hc Hs Hss.
  destruct (reachable_connected_manager btoa st d Hreach Hc) as [m Hm].
  pose proof (sendPayload_no_writable btoa st m d ss Hm Hc Hs Hss) as Hsend.
  split; [exact Hsend|]. rewrite Hsend. unfold trace_of. cbn [snd].
  change (?x :: ?l ++ ?r) with ([x] ++ l ++ r).
  by rewrite !count_writes_app, count_writes_characteristics.
Qed.

Lemma sendPayload_nothing_writable_witness :
  sendPayload base64_encode connected_to_beacon =
    (Ret tt, connected_to_beacon,
     [Services "11:22:33:44:55:66"; Characteristics "1800"; alert_no_characteristic])
  /\ count_writes (trace_of (sendPayload base64_encode connected_to_beacon)) = 0.
Proof.
  apply (sendPayload_nothing_writable base64_encode connected_to_beacon
           Demo.beacon [Demo.generic_access]).
  - exists (Ret Demo.manager), [PressConnect Demo.beacon; ChangeText "F"]. reflexivity.
  - reflexivity.
  - reflexivity.
  - reflexivity.
Defined.

(** C4, as stated, fails where the BLE manager could not be created: the
    screen is not connected, and [sendPayload] raises the "BLE unavailable"
    alert and not the "not connected" one. *)
Lemma sendPayload_without_ble_counterexample :
  reachable base64_encode without_ble /\
  connected without_ble = None /\
  sendPayload base64_encode without_ble = (Ret tt, without_ble, [alert_ble_unavailable]) /\
  alert_not_connected ∉ trace_of (sendPayload base64_encode without_ble).
Proof.
  split_and!.
  - by exists Demo.no_native_module, [].
  - reflexivity.
  - reflexivity.
  - intros Hin. cbn in Hin. apply list_elem_of_singleton in Hin. discriminate Hin.
Qed.

(** C4, amended.  When no device is connected, [sendPayload] raises one
    alert and returns, leaving the state as it is, listing no service and
    writing nothing: the "not connected" alert when the BLE manager
    exists, the "BLE unavailable" alert when it does not. *)
Theorem sendPayload_without_connection
    (btoa : string -> outcome string) (st : State) :
  connected st = None ->
  sendPayload btoa st =
    (Ret tt, st,
     [match managerRef st with
      | Some _ => alert_not_connected
      | None => alert_ble_unavailable
      end]) /\
  Forall (fun e => is_enumeration e = false /\ is_write e = false)
    (trace_of (sendPayload btoa st)).
Proof.
  intros Hc.
  assert (sendPayload btoa st =
            (Ret tt, st,
             [match managerRef st with
              | Some _ => alert_not_connected
              | None => alert_ble_unavailable
              end])) as Hsend.
  { destruct (managerRef st) as [m|] eqn:Hm.
    - by apply sendPayload_not_connected with m.
    - by apply sendPayload_unavailable. }
  split; [exact Hsend|]. rewrite Hsend.
  by destruct (managerRef st); repeat constructor.
Qed.

Lemma sendPayload_without_connection_witness :
  sendPayload base64_encode idle = (Ret tt, idle, [alert_not_connected]) /\
  Forall (fun e => is_enumeration e = false /\ is_write e = false)
    (trace_of (sendPayload base64_encode idle)).
Proof.
  apply (sendPayload_without_connection base64_encode idle). reflexivity.
Defined.

(** C9. Whatever [sendPayload] is run on, it never calls the
    write-without-response operation; and on a mounted, connected screen
    whose first writable characteristic is [c], whichever of its two flags
    makes it writable, the one write it issues is the with-response write
    to [c]. *)
Theorem sendPayload_writes_with_response
    (btoa : string -> outcome string) (st : State) (d : Ble.Device)
    (pre : list Ble.Service) (s : Ble.Service) (post : list Ble.Service)
    (cpre : list Ble.Characteristic) (c : Ble.Characteristic)
    (cpost : list Ble.Characteristic) (base64 : string) :
  reachable btoa st ->
  connected st = Some d ->
  Ble.services d = Ret (pre ++ s :: post) ->
  forallb lists_no_writable pre = true ->
  Ble.characteristics s = Ret (cpre ++ c :: cpost) ->
  forallb (fun c => negb (writable c)) cpre = true ->
  Ble.isWritableWithResponse c = true \/ Ble.isWritableWithoutResponse c = true ->
  btoa (payload st) = Ret base64 ->
  filter (fun e => is_write e = true) (trace_of (sendPayload btoa st)) =
    [WriteCharacteristicWithResponseForDevice
       (Ble.id d) (Ble.s_uuid s) (Ble.c_uuid c) base64] /\
  forall st', Forall (fun e => not_without_response e = true)
                (trace_of (sendPayload btoa st')).
Proof.
  intros Hreach Hc Hs Hpre Hcs Hcpre Hflags Hb.
  split; [|exact (sendPayload_emits btoa)].
  assert (writable c = true) as Hw.
  { unfold writable. destruct Hflags as [-> | ->]; [done|]. apply orb_true_r. }
  destruct (reachable_connected_manager btoa st d Hreach Hc) as [m Hm].
  rewrite (sendPayload_first_writable btoa st m d pre s post cpre c cpost
             Hm Hc Hs Hpre Hcs Hcpre Hw).
  rewrite Hb. unfold trace_of. cbn [snd write_and_report].
  change (?x :: ?l ++ ?r) with ([x] ++ l ++ r).
  rewrite !filter_app, filter_writes_characteristics.
  by destruct (Ble.writeCharacteristicWithResponseForDevice _ _ _ _ _).
Qed.

(** [Demo.uart_rx] is flagged writable without response only. *)
Lemma sendPayload_writes_with_response_witness :
  Ble.isWritableWithResponse Demo.uart_rx = false /\
  filter (fun e => is_write e = true)
    (trace_of (sendPayload base64_encode connected_to_car)) =
    [WriteCharacteristicWithResponseForDevice "AA:BB:CC:DD:EE:FF" "ffe0" "ffe3" "Rg=="].
Proof.
  split; [reflexivity|].
  apply (sendPayload_writes_with_response base64_encode connected_to_car
           Demo.car [Demo.generic_access] Demo.uart [Demo.ota]
           [Demo.readable "ffe1"; Demo.readable "ffe2"] Demo.uart_rx [] "Rg==").
  - exists (Ret Demo.manager), [PressConnect Demo.car; ChangeText "F"]. reflexivity.
  - reflexivity.
  - reflexivity.
  - reflexivity.
  - reflexivity.
  - reflexivity.
  - right. reflexivity.
  - reflexivity.
Defined.

(** ** Disconnecting *)

(** C2. With a device connected, the disconnect button evaluates the
    identifier [manager], which nothing in scope binds: the handler ends
    there with a [ReferenceError], issues no [cancelDeviceConnection] and
    leaves the connected device in place. *)
Theorem onPressDisconnect_throws (st : State) (d : Ble.Device) :
  onPressDisconnect (with_connected (Some d) st) =
    (Throw (ReferenceError "manager"), with_connected (Some d) st, []) /\
  connected (state_of (onPressDisconnect (with_connected (Some d) st))) = Some d /\
  CancelDeviceConnection (Ble.id d)
    ∉ trace_of (onPressDisconnect (with_connected (Some d) st)).
Proof.
  rewrite (onPressDisconnect_connected (with_connected (Some d) st) d eq_refl).
  split_and!; [done..|]. apply not_elem_of_nil.
Qed.

Example disconnect_after_connect :
  connected connect_then_disconnect.1 = Some Demo.car /\
  connect_then_disconnect.2 =
    [StopDeviceScan; ConnectToDevice "AA:BB:CC:DD:EE:FF";
     DiscoverAllServicesAndCharacteristics "AA:BB:CC:DD:EE:FF";
     alert_connected Demo.car].
Proof. split; reflexivity. Qed.

(** ** Scanning *)

(** C5. In every state of a mounted screen the identifiers of the device
    list are pairwise distinct, also after any further actions (a second
    [startScan] without a stop among them); a [startScan] that starts a
    scan leaves the list empty; and a discovery event appends its device
    exactly when the device has an identifier that the list does not hold
    yet. *)
Theorem devices_have_distinct_ids
    (btoa : string -> outcome string) (st : State) :
  reachable btoa st ->
  NoDup (map Ble.id (devices st)) /\
  (forall acts tr, NoDup (map Ble.id (devices (run btoa acts (st, tr)).1))) /\
  (forall env,
     StartDeviceScan ∈ trace_of (startScan env st) ->
     devices (state_of (startScan env st)) = []) /\
  (forall device,
     devices (state_of (scanListener None (Some device) st)) =
     if bool_decide (Ble.id device = "" \/ Ble.id device ∈ map Ble.id (devices st))
     then devices st
     else devices st ++ [device]).
Proof.
  intros Hreach. pose proof (reachable_Inv btoa st Hreach) as HInv.
  split_and!.
  - apply HInv.
  - intros acts tr. by apply (Inv_run btoa acts (st, tr)).
  - intros env Hin. destruct (managerRef st) as [m|] eqn:Hm.
    + rewrite (startScan_available _ _ _ Hm) in Hin |- *.
      destruct (decide (Platform_OS env = "android")) as [Hos|Hos].
      * rewrite (requestAndroidPermissions_android _ _ Hos) in Hin |- *.
        cbn in Hin |- *. destruct (match requestMultiple env _ with
                                   | Ret g => scan_permission_granted g
                                   | Throw _ => false end); [done|].
        cbn in Hin. apply elem_of_cons in Hin as [Hin|Hin]; [discriminate Hin|].
        apply list_elem_of_singleton in Hin. discriminate Hin.
      * by rewrite (requestAndroidPermissions_other _ _ Hos) in Hin |- *.
    + rewrite (startScan_unavailable _ _ Hm) in Hin. cbn in Hin.
      apply list_elem_of_singleton in Hin. discriminate Hin.
  - intros device. destruct (decide (Ble.id device = "")) as [Hid|Hid].
    + rewrite scanListener_nothing by eauto.
      by rewrite bool_decide_eq_true_2 by (by left).
    + rewrite (scanListener_device _ _ Hid). cbn.
      case_bool_decide as Hin.
      * by rewrite bool_decide_eq_true_2 by (by right).
      * rewrite bool_decide_eq_false_2; [done|]. by intros [?|?].
Qed.

Lemma devices_have_distinct_ids_witness :
  map Ble.id (devices scanned_twice) = ["AA:BB:CC:DD:EE:FF"; "11:22:33:44:55:66"] /\
  NoDup (map Ble.id (devices scanned_twice)).
Proof.
  split; [reflexivity|].
  apply (devices_have_distinct_ids base64_encode scanned_twice).
  by eexists (Ret Demo.manager), _.
Defined.



(** C8, as stated, fails where the BLE manager could not be created: on
    Android with every permission denied, [startScan] raises the
    "BLE unavailable" alert, asks for no permission and raises no
    permission notice. *)
Lemma startScan_permission_counterexample :
  Platform_OS Demo.android_denied = "android" /\
  (exists granted,
     requestMultiple Demo.android_denied requested_permissions = Ret granted /\
     scan_permission_granted granted = false) /\
  reachable base64_encode without_ble /\
  startScan Demo.android_denied without_ble
    = (Ret tt, without_ble, [alert_ble_unavailable]) /\
  alert_permissions ∉ trace_of (startScan Demo.android_denied without_ble).
Proof.
  split_and!.
  - reflexivity.
  - eexists. split; [reflexivity|]. by vm_compute.
  - by exists Demo.no_native_module, [].
  - reflexivity.
  - intros Hin. cbn in Hin. apply list_elem_of_singleton in Hin. discriminate Hin.
Qed.

(** C8, amended.  On Android, [startScan] starts a device scan only if the
    permission dialog answered and granted fine location or Bluetooth
    scan.  With a BLE manager present: if the dialog granted neither (or
    failed), [startScan] raises the permission notice and returns with the
    state, device list included, as it was and no scan started; if it
    granted one, the list is emptied, the flag set and the scan started.
    Without a BLE manager, [startScan] raises the "BLE unavailable" alert
    and returns before asking for permissions. *)
Theorem startScan_permission_gate (env : Env) (st : State) :
  Platform_OS env = "android" ->
  (StartDeviceScan ∈ trace_of (startScan env st) ->
   exists granted,
     requestMultiple env requested_permissions = Ret granted /\
     scan_permission_granted granted = true) /\
  (forall m,
     managerRef st = Some m ->
     (forall granted,
        requestMultiple env requested_permissions = Ret granted ->
        scan_permission_granted granted = false) ->
     startScan env st =
       (Ret tt, st, [RequestMultiple requested_permissions; alert_permissions])) /\
  (forall m granted,
     managerRef st = Some m ->
     requestMultiple env requested_permissions = Ret granted ->
     scan_permission_granted granted = true ->
     startScan env st =
       (Ret tt,
        with_scanSubscription (Ble.startDeviceScan m)
          (with_scanning true (with_devices (fun _ => []) st)),
        [RequestMultiple requested_permissions; StartDeviceScan])) /\
  (managerRef st = None ->
   startScan env st = (Ret tt, st, [alert_ble_unavailable])).
Proof.
  intros Hos.
  assert (forall m, managerRef st = Some m ->
            startScan env st =
            if match requestMultiple env requested_permissions with
               | Ret granted => scan_permission_granted granted
               | Throw _ => false
               end
            then (Ret tt,
                  with_scanSubscription (Ble.startDeviceScan m)
                    (with_scanning true (with_devices (fun _ => []) st)),
                  [RequestMultiple requested_permissions; StartDeviceScan])
            else (Ret tt, st, [RequestMultiple requested_permissions; alert_permissions]))
    as Hstart.
  { intros m Hm. rewrite (startScan_available _ _ _ Hm).
    rewrite (requestAndroidPermissions_android _ _ Hos). cbn.
    by destruct (match requestMultiple env _ with
                 | Ret g => scan_permission_granted g
                 | Throw _ => false end). }
  split_and!.
  - intros Hin. destruct (managerRef st) as [m|] eqn:Hm.
    + rewrite (Hstart m eq_refl) in Hin.
      destruct (requestMultiple env requested_permissions) as [granted|e].
      * destruct (scan_permission_granted granted) eqn:Hg; [by eexists|].
        cbn in Hin. apply elem_of_cons in Hin as [Hin|Hin]; [discriminate Hin|].
        apply list_elem_of_singleton in Hin. discriminate Hin.
      * cbn in Hin. apply elem_of_cons in Hin as [Hin|Hin]; [discriminate Hin|].
        apply list_elem_of_singleton in Hin. discriminate Hin.
    + rewrite (startScan_unavailable _ _ Hm) in Hin. cbn in Hin.
      apply list_elem_of_singleton in Hin. discriminate Hin.
  - intros m Hm Hdenied. rewrite (Hstart m Hm).
    destruct (requestMultiple env requested_permissions) as [granted|e]; [|done].
    by rewrite (Hdenied granted eq_refl).
  - intros m granted Hm Hanswer Hg. rewrite (Hstart m Hm). by rewrite Hanswer, Hg.
  - apply startScan_unavailable.
Qed.

Lemma startScan_permission_gate_witness :
  startScan Demo.android_denied idle =
    (Ret tt, idle, [RequestMultiple requested_permissions; alert_permissions]) /\
  startScan Demo.android_scan_only idle =
    (Ret tt,
     with_scanSubscription None
       (with_scanning true (with_devices (fun _ => []) idle)),
     [RequestMultiple requested_permissions; StartDeviceScan]).
Proof.
  split.
  - destruct (startScan_permission_gate Demo.android_denied idle eq_refl)
      as (_ & Hdenied & _ & _).
    apply (Hdenied Demo.manager eq_refl).
    intros granted [= <-]. by vm_compute.
  - destruct (startScan_permission_gate Demo.android_scan_only idle eq_refl)
      as (_ & _ & Hgranted & _).
    apply (Hgranted Demo.manager _ eq_refl eq_refl). by vm_compute.
Defined.

(** ** Connecting *)

(** C6. On a mounted screen, [connectToDevice] leaves the scanning flag
    cleared; with a BLE manager its first call is [stopDeviceScan], and
    only after the scan is stopped and the stored subscription removed
    does it open the connection to the selected device; when connection
    and discovery succeed it discovers the services and characteristics of
    the device it got, stores that device as connected and reports it.
    When removing the stored subscription throws (a value without
    [remove], or a [remove] that fails) the scan is stopped and the flag
    cleared all the same, and no connection is opened: the failure is
    logged and alerted and the connected device stays as it was.  Without
    a BLE manager it opens no connection. *)
Theorem connectToDevice_stops_scan_first
    (btoa : string -> outcome string) (st : State) (device : Ble.Device) :
  reachable btoa st ->
  scanning (state_of (connectToDevice device st)) = false /\
  match managerRef st with
  | Some m =>
      hd_error (trace_of (connectToDevice device st)) = Some StopDeviceScan /\
      match remove_outcome (scanSubscription st) with
      | Ret _ =>
          exists rest,
            trace_of (connectToDevice device st) =
              stop_calls st ++ ConnectToDevice (Ble.id device) :: rest /\
            forall d,
              connect_and_discover m device = Ret d ->
              connected (state_of (connectToDevice device st)) = Some d /\
              rest = [DiscoverAllServicesAndCharacteristics (Ble.id d);
                      alert_connected d]
      | Throw e =>
          trace_of (connectToDevice device st) =
            stop_calls st ++ [ConsoleWarn None e; alert_connect_failed] /\
          connected (state_of (connectToDevice device st)) = connected st
      end
  | None =>
      connectToDevice device st = (Ret tt, st, [alert_ble_unavailable])
  end.
Proof.
  intros Hreach. destruct (reachable_Inv btoa st Hreach) as [_ HInv].
  destruct (managerRef st) as [m|] eqn:Hm.
  - rewrite (connectToDevice_with_manager _ _ _ Hm). unfold connect_and_discover.
    destruct (remove_outcome (scanSubscription st)) as [[]|e0].
    + destruct (Ble.connectToDevice m (Ble.id device)) as [d|e];
        [destruct (Ble.discoverAllServicesAndCharacteristics d) as [[]|e]|];
        (split; [done|]); (split; [done|]); eexists; (split; [done|]).
      * by intros ? [= <-].
      * done.
      * done.
    + by split_and!.
  - rewrite (connectToDevice_unavailable _ _ Hm). split; [|done].
    by destruct (HInv eq_refl).
Qed.

Lemma connectToDevice_stops_scan_first_witness :
  (scanning scan_in_progress = true /\
   scanning (state_of (connectToDevice Demo.car scan_in_progress)) = false /\
   connected (state_of (connectToDevice Demo.car scan_in_progress)) = Some Demo.car /\
   trace_of (connectToDevice Demo.car scan_in_progress) =
     [StopDeviceScan; ConnectToDevice "AA:BB:CC:DD:EE:FF";
      DiscoverAllServicesAndCharacteristics "AA:BB:CC:DD:EE:FF";
      alert_connected Demo.car]) /\
  (scanning scan_in_progress_promise = true /\
   scanning (state_of (connectToDevice Demo.car scan_in_progress_promise)) = false /\
   connected (state_of (connectToDevice Demo.car scan_in_progress_promise)) = None /\
   trace_of (connectToDevice Demo.car scan_in_progress_promise) =
     [StopDeviceScan; ConsoleWarn None TypeError; alert_connect_failed]).
Proof.
  split.
  - destruct (connectToDevice_stops_scan_first base64_encode scan_in_progress Demo.car)
      as [Hflag (_ & rest & Htrace & Hsuccess)].
    { by exists (Ret Demo.manager), [StartScan Demo.ios]. }
    destruct (Hsuccess Demo.car eq_refl) as [Hconnected ->].
    split_and!; [reflexivity|exact Hflag|exact Hconnected|exact Htrace].
  - destruct (connectToDevice_stops_scan_first base64_encode
                scan_in_progress_promise Demo.car)
      as [Hflag (_ & Htrace & Hconnected)].
    { by exists (Ret Faults.promise_manager),
                [StartScan Demo.ios; ScanEvent None (Some Demo.car)]. }
    split_and!; [reflexivity|exact Hflag|exact Hconnected|exact Htrace].
Defined.

(** C10. The connected device after [connectToDevice] is the device the
    manager returned when stopping the scan, the connection and the
    discovery all succeeded, and in every other case (no BLE manager,
    removing the scan subscription throws, connection rejected, discovery
    rejected) the connected device it had before. *)
Theorem connectToDevice_updates_only_on_success (st : State) (device : Ble.Device) :
  connected (state_of (connectToDevice device st)) =
  match managerRef st with
  | Some m =>
      match remove_outcome (scanSubscription st) with
      | Ret _ =>
          match connect_and_discover m device with
          | Ret d => Some d
          | Throw _ => connected st
          end
      | Throw _ => connected st
      end
  | None => connected st
  end.
Proof.
  destruct (managerRef st) as [m|] eqn:Hm.
  - rewrite (connectToDevice_with_manager _ _ _ Hm). unfold connect_and_discover.
    destruct (remove_outcome (scanSubscription st)) as [[]|e0]; [|done].
    destruct (Ble.connectToDevice m (Ble.id device)) as [d|e]; [|done].
    by destruct (Ble.discoverAllServicesAndCharacteristics d) as [[]|e].
  - by rewrite (connectToDevice_unavailable _ _ Hm).
Qed.

Example connect_failures_keep_the_car :
  connected (state_of (connectToDevice Demo.flaky connected_to_car)) = Some Demo.car /\
  trace_of (connectToDevice Demo.flaky connected_to_car) =
    [StopDeviceScan; ConnectToDevice "DE:AD:BE:EF:00:01";
     DiscoverAllServicesAndCharacteristics "DE:AD:BE:EF:00:01";
     ConsoleWarn None (BleError "Device disconnected"); alert_connect_failed] /\
  connected (state_of (connectToDevice
                         {| Ble.id := "00:00"; Ble.name := None;
                            Ble.discoverAllServicesAndCharacteristics := Ret tt;
                            Ble.services := Ret [] |} connected_to_car))
    = Some Demo.car /\
  connect_and_discover Faults.promise_manager Demo.car = Ret Demo.car /\
  connected (state_of (connectToDevice Demo.car scan_in_progress_promise)) = None.
Proof. split_and!; reflexivity. Qed.

(** * Further properties *)

(** ** Unfolding the calls *)

Lemma bind_eq {A B} (c : M A) (k : A -> M B) (st : State) :
  bind c k st =
  match c st with
  | (Ret a, st1, tr1) =>
      (result_of (k a st1), state_of (k a st1), tr1 ++ trace_of (k a st1))
  | (Throw e, st1, tr1) => (Throw e, st1, tr1)
  end.
Proof.
  unfold bind. destruct (c st) as [[[a|e] st1] tr1]; [|done].
  by destruct (k a st1) as [[r st2] tr2].
Qed.

Lemma try_catch_eq {A} (body : M A) (h : exn -> M A) (st : State) :
  try_catch body h st =
  match body st with
  | (Ret a, st1, tr1) => (Ret a, st1, tr1)
  | (Throw e, st1, tr1) =>
      (result_of (h e st1), state_of (h e st1), tr1 ++ trace_of (h e st1))
  end.
Proof.
  unfold try_catch. destruct (body st) as [[[a|e] st1] tr1]; [done|].
  by destruct (h e st1) as [[r st2] tr2].
Qed.

Lemma service_characteristics_eq (s : Ble.Service) (st : State) :
  service_characteristics s st =
  (Ble.characteristics s, st, [Characteristics (Ble.s_uuid s)]).
Proof.
  unfold service_characteristics, bind, emit, settle.
  by destruct (Ble.characteristics s).
Qed.

Lemma device_services_eq (d : Ble.Device) (st : State) :
  device_services d st = (Ble.services d, st, [Services (Ble.id d)]).
Proof.
  unfold device_services, bind, emit, settle. by destruct (Ble.services d).
Qed.

Lemma count_alerts_app tr1 tr2 :
  count_alerts (tr1 ++ tr2) = count_alerts tr1 + count_alerts tr2.
Proof. unfold count_alerts. by rewrite filter_app, length_app. Qed.

Lemma count_writes_cons e tr :
  count_writes (e :: tr) = (if is_write e then 1 else 0) + count_writes tr.
Proof. unfold count_writes. rewrite filter_cons. by destruct (is_write e). Qed.

Lemma count_alerts_cons e tr :
  count_alerts (e :: tr) = (if is_alert e then 1 else 0) + count_alerts tr.
Proof. unfold count_alerts. rewrite filter_cons. by destruct (is_alert e). Qed.

(** ** How the loops of sendPayload end, in general *)

Section SendPayloadShape.

Variable btoa : string -> outcome string.
Variables (manager : Ble.BleManager) (dev : Ble.Device) (text : string).

Lemma for_characteristics_shape service cs st :
  loop_shape (for_characteristics btoa manager dev text service cs st).
Proof.
  induction cs as [|c cs IH]; cbn [for_characteristics]; [done|].
  destruct (_ || _); [|exact IH].
  unfold manager_writeCharacteristicWithResponseForDevice, Alert_alert,
    bind, settle, emit, ret, loop_shape.
  destruct (btoa text) as [b|e]; cbn; [|by auto].
  destruct (Ble.writeCharacteristicWithResponseForDevice _ _ _ _ _) as [[]|e];
    cbn; by auto.
Qed.

Lemma for_services_shape ss st :
  loop_shape (for_services btoa manager dev text ss st).
Proof.
  revert st. induction ss as [|s ss IH]; intros st; cbn [for_services]; [done|].
  rewrite bind_eq, service_characteristics_eq.
  destruct (Ble.characteristics s) as [cs|e]; [|by cbn; auto].
  rewrite bind_eq.
  pose proof (for_characteristics_shape s cs st) as Hcs.
  destruct (for_characteristics _ _ _ _ _ _ _) as [[[[|]|e] st1] tr1];
    unfold loop_shape, result_of, state_of, trace_of in Hcs |- *;
    cbn [fst snd] in Hcs |- *.
  - by rewrite app_nil_r.
  - specialize (IH st1). unfold loop_shape, result_of, trace_of in IH.
    destruct (for_services _ _ _ _ _ _) as [[r st2] tr2]. cbn [fst snd] in IH |- *.
    change (?x :: ?l ++ ?r) with ([x] ++ l ++ r).
    rewrite !count_writes_app, !count_alerts_app.
    destruct Hcs as [-> ->]. exact IH.
  - exact Hcs.
Qed.

End SendPayloadShape.

(** ** sendPayload on any screen *)

Lemma sendPayload_returns (btoa : string -> outcome string) (st : State) :
  result_of (sendPayload btoa st) = Ret tt.
Proof.
  destruct (managerRef st) as [m|] eqn:Hm;
    [|by rewrite (sendPayload_unavailable _ _ Hm)].
  destruct (connected st) as [d|] eqn:Hc;
    [|by rewrite (sendPayload_not_connected _ _ _ Hm Hc)].
  rewrite (sendPayload_connected _ _ _ _ Hm Hc), try_catch_eq, bind_eq,
    device_services_eq.
  destruct (Ble.services d) as [ss|e]; [|done].
  rewrite bind_eq.
  by destruct (for_services _ _ _ _ _ _) as [[[[|]|e] st1] tr1].
Qed.

(** X1. Whatever the state, the device and the encoder, [sendPayload]
    returns normally (every exception is caught), leaves the state of the
    component as it was, raises exactly one alert and issues at most one
    write. *)
Theorem sendPayload_one_alert_at_most_one_write
    (btoa : string -> outcome string) (st : State) :
  result_of (sendPayload btoa st) = Ret tt /\
  state_of (sendPayload btoa st) = st /\
  count_alerts (trace_of (sendPayload btoa st)) = 1 /\
  count_writes (trace_of (sendPayload btoa st)) <= 1.
Proof.
  split; [apply sendPayload_returns|split; [apply keeps_sendPayload|]].
  destruct (managerRef st) as [m|] eqn:Hm;
    [|by rewrite (sendPayload_unavailable _ _ Hm); cbn; auto].
  destruct (connected st) as [d|] eqn:Hc;
    [|by rewrite (sendPayload_not_connected _ _ _ Hm Hc); cbn; auto].
  rewrite (sendPayload_connected _ _ _ _ Hm Hc), try_catch_eq, bind_eq,
    device_services_eq.
  destruct (Ble.services d) as [ss|e]; [|by cbn; auto].
  rewrite bind_eq.
  pose proof (for_services_shape btoa m d (payload st) ss st) as Hss.
  unfold loop_shape, result_of, trace_of in Hss.
  destruct (for_services _ _ _ _ _ _) as [[[[|]|e] st1] tr1];
    cbn [fst snd] in Hss; destruct Hss as [Hw Ha];
    unfold console_warn, Alert_alert, bind, emit, ret, result_of, state_of, trace_of;
    cbn [fst snd app];
    rewrite ?count_writes_cons, ?count_alerts_cons, ?count_writes_app,
      ?count_alerts_app, ?count_writes_cons, ?count_alerts_cons, Ha;
    cbn [is_write is_alert]; change (count_writes []) with 0;
    change (count_alerts []) with 0; lia.
Qed.

(** ** sendPayload when something fails *)

Lemma for_services_listing_fails btoa m d text pre s post e st :
  forallb lists_no_writable pre = true ->
  Ble.characteristics s = Throw e ->
  for_services btoa m d text (pre ++ s :: post) st =
  (Throw e, st, map (fun s => Characteristics (Ble.s_uuid s)) (pre ++ [s])).
Proof.
  intros Hpre Hs. induction pre as [|s0 pre IH]; cbn [app for_services forallb map] in *.
  - by rewrite bind_eq, service_characteristics_eq, Hs.
  - apply andb_prop in Hpre as [Hs0 Hpre]. unfold lists_no_writable in Hs0.
    destruct (Ble.characteristics s0) as [cs|e0] eqn:Hcs; [|done].
    rewrite bind_eq, service_characteristics_eq, Hcs, bind_eq.
    rewrite (for_characteristics_none btoa m d text s0 cs st Hs0).
    cbn [result_of state_of trace_of fst snd]. by rewrite (IH Hpre).
Qed.

(** X2. With a manager and a connected device whose [services()] call is
    rejected, [sendPayload] logs the error, raises the generic send-failure
    alert, and neither lists a characteristic nor writes. *)
Theorem sendPayload_services_rejected
    (btoa : string -> outcome string) (st : State)
    (m : Ble.BleManager) (d : Ble.Device) (e : exn) :
  managerRef st = Some m ->
  connected st = Some d ->
  Ble.services d = Throw e ->
  sendPayload btoa st =
    (Ret tt, st, [Services (Ble.id d); ConsoleWarn None e; alert_send_failed]).
Proof.
  intros Hm Hc Hs.
  rewrite (sendPayload_connected _ _ _ _ Hm Hc), try_catch_eq, bind_eq,
    device_services_eq, Hs.
  reflexivity.
Qed.

Lemma sendPayload_services_rejected_witness :
  sendPayload base64_encode connected_to_flaky =
    (Ret tt, connected_to_flaky,
     [Services "DE:AD:BE:EF:00:01";
      ConsoleWarn None (BleError "Services not discovered"); alert_send_failed]).
Proof.
  apply (sendPayload_services_rejected base64_encode connected_to_flaky
           Demo.manager Demo.flaky); reflexivity.
Defined.

(** X3. With a manager and a connected device, when the characteristics of
    a service cannot be listed and no service before it holds a writable
    characteristic, [sendPayload] stops at that service: it logs the
    error, raises the generic send-failure alert, writes nothing and does
    not look at the services after it, writable or not. *)
Theorem sendPayload_characteristics_rejected
    (btoa : string -> outcome string) (st : State)
    (m : Ble.BleManager) (d : Ble.Device)
    (pre : list Ble.Service) (s : Ble.Service) (post : list Ble.Service) (e : exn) :
  managerRef st = Some m ->
  connected st = Some d ->
  Ble.services d = Ret (pre ++ s :: post) ->
  forallb lists_no_writable pre = true ->
  Ble.characteristics s = Throw e ->
  sendPayload btoa st =
    (Ret tt, st,
     Services (Ble.id d) :: map (fun s => Characteristics (Ble.s_uuid s)) (pre ++ [s])
       ++ [ConsoleWarn None e; alert_send_failed]) /\
  count_writes (trace_of (sendPayload btoa st)) = 0.
Proof.
  intros Hm Hc Hs Hpre He.
  assert (sendPayload btoa st =
            (Ret tt, st,
             Services (Ble.id d)
               :: map (fun s => Characteristics (Ble.s_uuid s)) (pre ++ [s])
               ++ [ConsoleWarn None e; alert_send_failed])) as Hsend.
  { rewrite (sendPayload_connected _ _ _ _ Hm Hc), try_catch_eq, bind_eq,
      device_services_eq, Hs, bind_eq.
    by rewrite (for_services_listing_fails btoa m d _ pre s post e st Hpre He). }
  split; [exact Hsend|]. rewrite Hsend. unfold trace_of. cbn [snd].
  change (?x :: ?l ++ ?r) with ([x] ++ l ++ r).
  by rewrite !count_writes_app, count_writes_characteristics.
Qed.

Lemma sendPayload_characteristics_rejected_witness :
  sendPayload base64_encode connected_to_half_broken =
    (Ret tt, connected_to_half_broken,
     [Services "AA:BB:CC:DD:EE:00"; Characteristics "1800"; Characteristics "dead";
      ConsoleWarn None (BleError "Characteristics not discovered");
      alert_send_failed]).
Proof.
  apply (sendPayload_characteristics_rejected base64_encode connected_to_half_broken
           Demo.manager Faults.half_broken_car
           [Demo.generic_access] Faults.broken [Demo.uart; Demo.ota]);
    reflexivity.
Defined.

(** X4. With a manager and a connected device, when encoding the payload
    throws at the first writable characteristic, [sendPayload] issues no
    write at all: it logs the error and raises the generic send-failure
    alert. *)
Theorem sendPayload_encoding_fails
    (btoa : string -> outcome string) (st : State)
    (m : Ble.BleManager) (d : Ble.Device)
    (pre : list Ble.Service) (s : Ble.Service) (post : list Ble.Service)
    (cpre : list Ble.Characteristic) (c : Ble.Characteristic)
    (cpost : list Ble.Characteristic) (e : exn) :
  managerRef st = Some m ->
  connected st = Some d ->
  Ble.services d = Ret (pre ++ s :: post) ->
  forallb lists_no_writable pre = true ->
  Ble.characteristics s = Ret (cpre ++ c :: cpost) ->
  forallb (fun c => negb (writable c)) cpre = true ->
  writable c = true ->
  btoa (payload st) = Throw e ->
  sendPayload btoa st =
    (Ret tt, st,
     Services (Ble.id d) :: map (fun s => Characteristics (Ble.s_uuid s)) (pre ++ [s])
       ++ [ConsoleWarn None e; alert_send_failed]) /\
  count_writes (trace_of (sendPayload btoa st)) = 0.
Proof.
  intros Hm Hc Hs Hpre Hcs Hcpre Hw Hb.
  pose proof (sendPayload_first_writable btoa st m d pre s post cpre c cpost
                Hm Hc Hs Hpre Hcs Hcpre Hw) as Hsend.
  rewrite Hb in Hsend. cbn [write_and_report] in Hsend.
  split; [exact Hsend|]. rewrite Hsend. unfold trace_of. cbn [snd].
  change (?x :: ?l ++ ?r) with ([x] ++ l ++ r).
  by rewrite !count_writes_app, count_writes_characteristics.
Qed.

Lemma sendPayload_encoding_fails_witness :
  sendPayload Faults.refusing_btoa connected_to_car =
    (Ret tt, connected_to_car,
     [Services "AA:BB:CC:DD:EE:FF"; Characteristics "1800"; Characteristics "ffe0";
      ConsoleWarn None InvalidCharacterError; alert_send_failed]).
Proof.
  apply (sendPayload_encoding_fails Faults.refusing_btoa connected_to_car
           Demo.manager Demo.car [Demo.generic_access] Demo.uart [Demo.ota]
           [Demo.readable "ffe1"; Demo.readable "ffe2"] Demo.uart_rx []);
    reflexivity.
Defined.

(** X5. With a manager and a connected device, when the write to the first
    writable characteristic is rejected, [sendPayload] logs the error and
    raises the generic send-failure alert: that write stays the only one
    (no other writable characteristic is tried, no retry) and the "sent"
    alert is not raised. *)
Theorem sendPayload_write_rejected
    (btoa : string -> outcome string) (st : State)
    (m : Ble.BleManager) (d : Ble.Device)
    (pre : list Ble.Service) (s : Ble.Service) (post : list Ble.Service)
    (cpre : list Ble.Characteristic) (c : Ble.Characteristic)
    (cpost : list Ble.Characteristic) (base64 : string) (e : exn) :
  managerRef st = Some m ->
  connected st = Some d ->
  Ble.services d = Ret (pre ++ s :: post) ->
  forallb lists_no_writable pre = true ->
  Ble.characteristics s = Ret (cpre ++ c :: cpost) ->
  forallb (fun c => negb (writable c)) cpre = true ->
  writable c = true ->
  btoa (payload st) = Ret base64 ->
  Ble.writeCharacteristicWithResponseForDevice m
    (Ble.id d) (Ble.s_uuid s) (Ble.c_uuid c) base64 = Throw e ->
  sendPayload btoa st =
    (Ret tt, st,
     Services (Ble.id d) :: map (fun s => Characteristics (Ble.s_uuid s)) (pre ++ [s])
       ++ [WriteCharacteristicWithResponseForDevice
             (Ble.id d) (Ble.s_uuid s) (Ble.c_uuid c) base64;
           ConsoleWarn None e; alert_send_failed]) /\
  count_writes (trace_of (sendPayload btoa st)) = 1 /\
  alert_sent ∉ trace_of (sendPayload btoa st).
Proof.
  intros Hm Hc Hs Hpre Hcs Hcpre Hw Hb Hwrite.
  pose proof (sendPayload_first_writable btoa st m d pre s post cpre c cpost
                Hm Hc Hs Hpre Hcs Hcpre Hw) as Hsend.
  rewrite Hb in Hsend. cbn [write_and_report] in Hsend. rewrite Hwrite in Hsend.
  split; [exact Hsend|]. rewrite Hsend. unfold trace_of. cbn [snd]. split.
  - change (?x :: ?l ++ ?r) with ([x] ++ l ++ r).
    by rewrite !count_writes_app, count_writes_characteristics.
  - rewrite elem_of_cons, elem_of_app, list_elem_of_fmap, !elem_of_cons, elem_of_nil.
    intros [Heq|[(s' & Heq & _)|[Heq|[Heq|[Heq|[]]]]]]; discriminate Heq.
Qed.

Lemma sendPayload_write_rejected_witness :
  sendPayload base64_encode connected_read_only =
    (Ret tt, connected_read_only,
     [Services "AA:BB:CC:DD:EE:FF"; Characteristics "1800"; Characteristics "ffe0";
      WriteCharacteristicWithResponseForDevice "AA:BB:CC:DD:EE:FF" "ffe0" "ffe3" "Rg==";
      ConsoleWarn None (BleError "Characteristic write failed"); alert_send_failed]).
Proof.
  apply (sendPayload_write_rejected base64_encode connected_read_only
           Faults.read_only_manager Demo.car [Demo.generic_access] Demo.uart [Demo.ota]
           [Demo.readable "ffe1"; Demo.readable "ffe2"] Demo.uart_rx [] "Rg==");
    reflexivity.
Defined.

(** ** The handlers together *)

Lemma startScan_result env st : result_of (startScan env st) = Ret tt.
Proof.
  destruct (managerRef st) as [m|] eqn:Hm.
  - rewrite (startScan_available _ _ _ Hm).
    by destruct (result_of (requestAndroidPermissions env st)) as [[|]|].
  - by rewrite (startScan_unavailable _ _ Hm).
Qed.

Lemma startScan_state env st :
  state_of (startScan env st) = st \/
  exists m, managerRef st = Some m /\
    state_of (startScan env st) =
      with_scanSubscription (Ble.startDeviceScan m)
        (with_scanning true (with_devices (fun _ => []) st)).
Proof.
  destruct (managerRef st) as [m|] eqn:Hm.
  - rewrite (startScan_available _ _ _ Hm).
    destruct (result_of (requestAndroidPermissions env st)) as [[|]|];
      [right; by exists m|by left..].
  - left. by rewrite (startScan_unavailable _ _ Hm).
Qed.

Lemma stopScan_state st :
  stopScan st =
  (match managerRef st with
   | Some _ => remove_outcome (scanSubscription st)
   | None => Ret tt
   end,
   match managerRef st with Some _ => with_scanning false st | None => st end,
   match managerRef st with Some _ => stop_calls st | None => [] end).
Proof.
  destruct (managerRef st) as [m|] eqn:Hm.
  - by rewrite (stopScan_available _ _ Hm).
  - by rewrite (stopScan_unavailable _ Hm).
Qed.

Lemma scanListener_result err device st :
  result_of (scanListener err device st) = Ret tt.
Proof.
  destruct err as [err|]; [done|]. destruct device as [device|]; [|done].
  unfold scanListener. by case_bool_decide.
Qed.

Lemma scanListener_state err device st :
  state_of (scanListener err device st) = with_scanning false st \/
  state_of (scanListener err device st) = st \/
  exists d, device = Some d /\ Ble.id d <> "" /\
    (Ble.id d ∉ map Ble.id (devices st)) /\
    state_of (scanListener err device st) = with_devices (fun prev => prev ++ [d]) st.
Proof.
  destruct err as [err|]; [by left|]. right.
  destruct device as [device|]; [|by left].
  destruct (decide (Ble.id device = "")) as [Hid|Hid];
    [left; by rewrite scanListener_nothing by eauto|].
  rewrite (scanListener_device _ _ Hid). cbn.
  destruct (decide (Ble.id device ∈ map Ble.id (devices st))) as [Hin|Hin].
  - left. destruct st. unfold with_devices. cbn in *.
    by rewrite bool_decide_eq_true_2.
  - right. exists device. split_and!; [done..|].
    unfold with_devices. by rewrite bool_decide_eq_false_2.
Qed.

Lemma connectToDevice_state device st :
  connectToDevice device st =
  (Ret tt, state_of (connectToDevice device st), trace_of (connectToDevice device st)) /\
  (state_of (connectToDevice device st) = st \/
   state_of (connectToDevice device st) = with_scanning false st \/
   exists d, state_of (connectToDevice device st)
             = with_connected (Some d) (with_scanning false st)).
Proof.
  destruct (managerRef st) as [m|] eqn:Hm.
  - rewrite (connectToDevice_with_manager _ _ _ Hm).
    destruct (remove_outcome _) as [[]|e0];
      [destruct (Ble.connectToDevice m _) as [d|e];
       [destruct (Ble.discoverAllServicesAndCharacteristics d) as [[]|e]|]|];
      (split; [done|]); eauto.
  - rewrite (connectToDevice_unavailable _ _ Hm). auto.
Qed.

Lemma onPressDisconnect_state st : state_of (onPressDisconnect st) = st.
Proof.
  destruct (connected st) as [d|] eqn:Hc.
  - by rewrite (onPressDisconnect_connected _ _ Hc).
  - by rewrite (onPressDisconnect_idle _ Hc).
Qed.

(** X6. Where a handler can end in an exception: the disconnect button
    pressed while a device is connected ([ReferenceError]), and [stopScan]
    run from the scan button or on its own with a manager, when removing
    the stored subscription throws.  Everywhere else the handler returns
    normally: rejected connections, discoveries, listings, writes and
    permission requests and a throwing encoder are caught, and inside
    [connectToDevice] so is the exception of [stopScan]. *)
Theorem where_handlers_throw
    (btoa : string -> outcome string) (a : Action) (st : State) :
  result_of (handler btoa a st) =
  match a with
  | PressDisconnect =>
      match connected st with
      | Some _ => Throw (ReferenceError "manager")
      | None => Ret tt
      end
  | PressScan _ =>
      match scanning st, managerRef st with
      | true, Some _ => remove_outcome (scanSubscription st)
      | _, _ => Ret tt
      end
  | StopScan =>
      match managerRef st with
      | Some _ => remove_outcome (scanSubscription st)
      | None => Ret tt
      end
  | _ => Ret tt
  end.
Proof.
  destruct a as [env|env| |err device|device| |text| ]; cbn [handler].
  - unfold onPressScan. rewrite bind_read. destruct (scanning st).
    + by rewrite stopScan_state.
    + rewrite startScan_result. by destruct (managerRef st).
  - apply startScan_result.
  - by rewrite stopScan_state.
  - apply scanListener_result.
  - by rewrite (proj1 (connectToDevice_state device st)).
  - destruct (connected st) as [d|] eqn:Hc.
    + by rewrite (onPressDisconnect_connected _ _ Hc).
    + by rewrite (onPressDisconnect_idle _ Hc).
  - done.
  - apply sendPayload_returns.
Qed.

Lemma handler_keeps (btoa : string -> outcome string) (a : Action) (st : State) :
  (if writes_devices a then True
   else devices (state_of (handler btoa a st)) = devices st) /\
  (if writes_connected a then True
   else connected (state_of (handler btoa a st)) = connected st).
Proof.
  destruct a as [env|env| |err device|device| |text| ];
    cbn [handler writes_devices writes_connected].
  - split; [done|]. unfold onPressScan. rewrite bind_read. destruct (scanning st).
    + rewrite stopScan_state. by destruct (managerRef st).
    + by destruct (startScan_state env st) as [->|(m & _ & ->)].
  - split; [done|]. by destruct (startScan_state env st) as [->|(m & _ & ->)].
  - rewrite stopScan_state. by destruct (managerRef st).
  - split; [done|].
    by destruct (scanListener_state err device st) as [->|[->|(d & _ & _ & _ & ->)]].
  - split; [|done].
    by destruct (proj2 (connectToDevice_state device st)) as [->|[->|[d ->]]].
  - by rewrite onPressDisconnect_state.
  - done.
  - by rewrite (keeps_sendPayload btoa st).
Qed.

(** X7. Which handler writes which cell of the state: none writes the
    manager ref; only the scan button, [startScan] and the scan listener
    write the device list; only [connectToDevice] writes the connected
    device; only the text input writes the payload; sending, the
    disconnect button and the text input leave the scanning flag alone;
    and only [startScan] (directly or through the scan button) writes the
    scan subscription. *)
Theorem handler_frame
    (btoa : string -> outcome string) (a : Action) (st : State) :
  managerRef (state_of (handler btoa a st)) = managerRef st /\
  (if writes_devices a then True
   else devices (state_of (handler btoa a st)) = devices st) /\
  (if writes_connected a then True
   else connected (state_of (handler btoa a st)) = connected st) /\
  (if writes_payload a then True
   else payload (state_of (handler btoa a st)) = payload st) /\
  (if writes_scanning a then True
   else scanning (state_of (handler btoa a st)) = scanning st) /\
  (if starts_no_scan a
   then scanSubscription (state_of (handler btoa a st)) = scanSubscription st
   else True).
Proof.
  assert (forall env,
            managerRef (state_of (startScan env st)) = managerRef st /\
            connected (state_of (startScan env st)) = connected st /\
            payload (state_of (startScan env st)) = payload st) as Hstart.
  { intros env. by destruct (startScan_state env st) as [->|(m & _ & ->)]. }
  assert (managerRef (state_of (stopScan st)) = managerRef st /\
          devices (state_of (stopScan st)) = devices st /\
          connected (state_of (stopScan st)) = connected st /\
          payload (state_of (stopScan st)) = payload st /\
          scanSubscription (state_of (stopScan st)) = scanSubscription st) as Hstop.
  { rewrite stopScan_state. destruct (managerRef st) eqn:Hm; cbn; by rewrite ?Hm. }
  destruct a as [env|env| |err device|device| |text| ];
    cbn [handler writes_devices writes_connected writes_payload writes_scanning
         starts_no_scan].
  - unfold onPressScan. rewrite bind_read. destruct (scanning st).
    + by destruct Hstop as (? & ? & ? & ? & ?).
    + by destruct (Hstart env) as (? & ? & ?).
  - by destruct (Hstart env) as (? & ? & ?).
  - by destruct Hstop as (? & ? & ? & ? & ?).
  - by destruct (scanListener_state err device st)
      as [->|[->|(d & _ & _ & _ & ->)]].
  - by destruct (proj2 (connectToDevice_state device st)) as [->|[->|[d ->]]].
  - by rewrite onPressDisconnect_state.
  - done.
  - by rewrite (keeps_sendPayload btoa st).
Qed.

(** ** The device list *)

Section DeviceList.

Variable btoa : string -> outcome string.

Lemma devices_after_handler a st :
  devices (state_of (handler btoa a st)) = devices st \/
  (starts_no_scan a = false /\ devices (state_of (handler btoa a st)) = []) \/
  exists d, Ble.id d <> "" /\ (Ble.id d ∉ map Ble.id (devices st)) /\
    devices (state_of (handler btoa a st)) = devices st ++ [d].
Proof.
  assert (forall env,
            devices (state_of (startScan env st)) = devices st \/
            devices (state_of (startScan env st)) = []) as Hstart.
  { intros env. destruct (startScan_state env st) as [->|(m & _ & ->)]; auto. }
  destruct (handler_keeps btoa a st) as [Hdev _].
  destruct a as [env|env| |err device|device| |text| ];
    cbn [writes_devices] in Hdev; auto; cbn [handler starts_no_scan].
  - unfold onPressScan. rewrite bind_read. destruct (scanning st).
    + left. rewrite stopScan_state. by destruct (managerRef st).
    + destruct (Hstart env); auto.
  - destruct (Hstart env); auto.
  - destruct (scanListener_state err device st)
      as [->|[->|(d & _ & Hid & Hin & ->)]]; [by left..|].
    right; right. by exists d.
Qed.

Lemma ids_nonempty_handler a st :
  Forall (fun d => Ble.id d <> "") (devices st) ->
  Forall (fun d => Ble.id d <> "") (devices (state_of (handler btoa a st))).
Proof.
  intros Hst.
  destruct (devices_after_handler a st) as [->|[[_ ->]|(d & Hid & _ & ->)]];
    [done|constructor|].
  apply Forall_app. split; [done|]. by constructor.
Qed.

Lemma ids_nonempty_run acts w :
  Forall (fun d => Ble.id d <> "") (devices w.1) ->
  Forall (fun d => Ble.id d <> "") (devices (run btoa acts w).1).
Proof.
  revert w. induction acts as [|a acts IH]; intros w Hw; cbn [run]; [done|].
  pose proof (ids_nonempty_handler a _ Hw) as Hstep.
  destruct (handler btoa a w.1) as [[r st'] tr]. by apply IH.
Qed.

End DeviceList.

Lemma name_or_id_nonempty (d : Ble.Device) : Ble.id d <> "" -> name_or_id d <> "".
Proof.
  intros Hid. unfold name_or_id. destruct (Ble.name d) as [n|]; [|done].
  by case_bool_decide.
Qed.

(** X8. As long as [startScan] is not entered, the device list only grows
    at its end: whatever else happens (discoveries, scan errors, stopping,
    connecting, sending), the list before is a prefix of the list after,
    so no device is dropped or moved. *)
Theorem device_list_only_grows
    (btoa : string -> outcome string) (acts : list Action)
    (st : State) (tr : list Event) :
  forallb starts_no_scan acts = true ->
  devices st `prefix_of` devices (run btoa acts (st, tr)).1.
Proof.
  revert st tr. induction acts as [|a acts IH]; intros st tr Hacts; cbn [run].
  - done.
  - cbn [forallb] in Hacts. apply andb_prop in Hacts as [Ha Hacts].
    pose proof (devices_after_handler btoa a st) as Hstep. cbn [fst snd].
    destruct (handler btoa a st) as [[r st'] tr']. cbn [state_of fst snd] in Hstep.
    etrans; [|by apply IH].
    destruct Hstep as [->|[[Hno _]|(d & _ & _ & ->)]]; [done|congruence|].
    by apply prefix_app_r.
Qed.

Lemma device_list_only_grows_witness :
  devices (run base64_encode several_discoveries (scan_in_progress, [])).1
    = [Demo.car; Demo.beacon] /\
  devices scan_in_progress
    `prefix_of` devices (run base64_encode several_discoveries (scan_in_progress, [])).1.
Proof.
  split; [reflexivity|].
  apply (device_list_only_grows base64_encode several_discoveries scan_in_progress []).
  reflexivity.
Defined.

(** X9. On a mounted screen every device in the list has a non-empty
    identifier, so the rows the list renders have pairwise distinct,
    non-empty keys and a non-empty text. *)
Theorem listed_devices_render
    (btoa : string -> outcome string) (st : State) :
  reachable btoa st ->
  Forall (fun item => keyExtractor item <> "" /\ renderItem_text item <> "")
    (devices st) /\
  NoDup (map keyExtractor (devices st)).
Proof.
  intros Hreach. split; [|by apply (reachable_Inv btoa st Hreach)].
  destruct Hreach as (mk & acts & <-).
  eapply Forall_impl; [apply ids_nonempty_run|].
  - destruct mk; constructor.
  - intros d Hid. split; [done|]. by apply name_or_id_nonempty.
Qed.

Lemma listed_devices_render_witness :
  map renderItem_text (devices scanned_twice) = ["MecanumCar"; "11:22:33:44:55:66"] /\
  Forall (fun item => keyExtractor item <> "" /\ renderItem_text item <> "")
    (devices scanned_twice) /\
  NoDup (map keyExtractor (devices scanned_twice)).
Proof.
  split; [reflexivity|].
  apply (listed_devices_render base64_encode scanned_twice).
  by eexists (Ret Demo.manager), _.
Defined.

(** ** Connections are never cancelled *)

Ltac emits_steps :=
  repeat first
    [ apply emits_ret | apply emits_settle | apply emits_read
    | apply emits_emit; reflexivity
    | apply emits_bind; [|intros ?]
    | apply emits_try_catch; [|intros ?] ].

Section Footprint.

Variable btoa : string -> outcome string.

Local Abbreviation mine := (fun e => sendPayload_call e = true).

Lemma for_characteristics_calls manager connected payload service cs :
  emits_only mine (for_characteristics btoa manager connected payload service cs).
Proof.
  induction cs as [|c cs IH]; cbn [for_characteristics]; [emits_steps|].
  destruct (_ || _); [|exact IH].
  unfold manager_writeCharacteristicWithResponseForDevice, Alert_alert. emits_steps.
Qed.

Lemma for_services_calls manager connected payload ss :
  emits_only mine (for_services btoa manager connected payload ss).
Proof.
  induction ss as [|s ss IH]; cbn [for_services]; [emits_steps|].
  unfold service_characteristics. emits_steps.
  - apply for_characteristics_calls.
  - match goal with |- context [if ?b then _ else _] => destruct b end;
      [emits_steps|exact IH].
Qed.

Lemma sendPayload_calls : emits_only mine (sendPayload btoa).
Proof.
  unfold sendPayload, ensureManager, Alert_alert, console_warn, device_services.
  apply emits_bind.
  { emits_steps.
    match goal with |- context [match ?m with _ => _ end] => destruct m end;
      emits_steps. }
  intros [m|]; [|emits_steps].
  apply emits_bind; [emits_steps|]. intros [d|]; [|emits_steps].
  emits_steps.
  - apply for_services_calls.
  - match goal with |- context [if ?b then _ else _] => destruct b end; emits_steps.
Qed.

Lemma startScan_never_cancels env st :
  Forall (fun e => is_cancel e = false) (trace_of (startScan env st)).
Proof.
  destruct (managerRef st) as [m|] eqn:Hm;
    [|rewrite (startScan_unavailable _ _ Hm); by repeat constructor].
  rewrite (startScan_available _ _ _ Hm).
  assert (Forall (fun e => is_cancel e = false)
            (trace_of (requestAndroidPermissions env st))) as Hperm.
  { destruct (decide (Platform_OS env = "android")) as [Hos|Hos].
    - rewrite (requestAndroidPermissions_android _ _ Hos). by repeat constructor.
    - rewrite (requestAndroidPermissions_other _ _ Hos). constructor. }
  destruct (result_of (requestAndroidPermissions env st)) as [[|]|];
    cbn [trace_of snd]; apply Forall_app; (split; [exact Hperm|by repeat constructor]).
Qed.

Lemma stopScan_never_cancels st :
  Forall (fun e => is_cancel e = false) (trace_of (stopScan st)).
Proof.
  rewrite stopScan_state. cbn [trace_of snd]. unfold stop_calls.
  destruct (managerRef st); [|constructor].
  destruct (scanSubscription st) as [[? ?| ]|]; by repeat constructor.
Qed.

Lemma handler_never_cancels a st :
  Forall (fun e => is_cancel e = false) (trace_of (handler btoa a st)).
Proof.
  destruct a as [env|env| |err device|device| |text| ]; cbn [handler].
  - unfold onPressScan. rewrite bind_read. destruct (scanning st).
    + apply stopScan_never_cancels.
    + apply startScan_never_cancels.
  - apply startScan_never_cancels.
  - apply stopScan_never_cancels.
  - destruct err as [err|]; [by repeat constructor|].
    destruct device as [device|]; [|constructor].
    unfold scanListener. case_bool_decide; constructor.
  - destruct (managerRef st) as [m|] eqn:Hm;
      [|rewrite (connectToDevice_unavailable _ _ Hm); by repeat constructor].
    rewrite (connectToDevice_with_manager _ _ _ Hm). unfold stop_calls.
    destruct (remove_outcome _) as [[]|e0];
      [destruct (Ble.connectToDevice m _) as [d|e];
       [destruct (Ble.discoverAllServicesAndCharacteristics d) as [[]|e]|]|];
      destruct (scanSubscription st) as [[? ?| ]|]; by repeat constructor.
  - destruct (connected st) as [d|] eqn:Hc.
    + rewrite (onPressDisconnect_connected _ _ Hc). constructor.
    + rewrite (onPressDisconnect_idle _ Hc). constructor.
  - constructor.
  - eapply Forall_impl; [apply sendPayload_calls|]. by intros [].
Qed.

Lemma connected_stays_handler a st :
  is_Some (connected st) -> is_Some (connected (state_of (handler btoa a st))).
Proof.
  intros Hc. destruct (handler_keeps btoa a st) as [_ Hconn].
  destruct a as [env|env| |err device|device| |text| ];
    cbn [writes_connected] in Hconn; try by rewrite Hconn.
  cbn [handler].
  by destruct (proj2 (connectToDevice_state device st)) as [->|[->|[d ->]]].
Qed.

End Footprint.

(** X10. Whatever happens on a mounted screen, it never asks the manager to
    cancel a connection: among all the calls made since mounting there is
    no [cancelDeviceConnection], not when disconnecting and not when
    connecting to a second device. *)
Theorem screen_never_cancels_a_connection
    (btoa : string -> outcome string)
    (new_BleManager : outcome Ble.BleManager) (acts : list Action) :
  Forall (fun e => is_cancel e = false) (run btoa acts (mounted new_BleManager)).2.
Proof.
  assert (forall w, Forall (fun e => is_cancel e = false) w.2 ->
                    Forall (fun e => is_cancel e = false) (run btoa acts w).2) as Hrun.
  { induction acts as [|a acts IH]; intros w Hw; cbn [run]; [done|].
    pose proof (handler_never_cancels btoa a w.1) as Hstep.
    destruct (handler btoa a w.1) as [[r st'] tr]. apply IH. cbn [snd].
    by apply Forall_app. }
  apply Hrun. destruct new_BleManager; by repeat constructor.
Qed.

(** X11. Once a device is connected, no sequence of actions brings the
    connected state back to null: the screen stays connected, to that
    device or to one connected later. *)
Theorem connected_is_never_cleared
    (btoa : string -> outcome string) (acts : list Action)
    (st : State) (tr : list Event) :
  is_Some (connected st) ->
  is_Some (connected (run btoa acts (st, tr)).1).
Proof.
  revert st tr. induction acts as [|a acts IH]; intros st tr Hc; cbn [run]; [done|].
  pose proof (connected_stays_handler btoa a st Hc) as Hstep. cbn [fst snd].
  destruct (handler btoa a st) as [[r st'] tr']. by apply IH.
Qed.

Lemma connected_is_never_cleared_witness :
  connected (run base64_encode
               [PressDisconnect; PressConnect Demo.flaky; PressDisconnect;
                PressConnect Demo.beacon; PressDisconnect]
               (connected_to_car, [])).1 = Some Demo.beacon /\
  is_Some (connected (run base64_encode
                        [PressDisconnect; PressConnect Demo.flaky; PressDisconnect;
                         PressConnect Demo.beacon; PressDisconnect]
                        (connected_to_car, [])).1).
Proof.
  split; [reflexivity|].
  apply (connected_is_never_cleared base64_encode _ connected_to_car []).
  by eexists.
Defined.

(** ** Starting and stopping the scan *)

(** X12. With a manager, [stopScan] calls [stopDeviceScan] and clears the
    flag before it touches the stored subscription, and ends the way
    removing that value ends: normally on a nullish value, with the
    outcome of [remove] where there is one, with a [TypeError] on a value
    without [remove].  It never clears the stored value, so a second call
    does exactly the same again, exception included.  Without a manager
    it calls and changes nothing. *)
Theorem stopScan_again (st : State) :
  stopScan (state_of (stopScan st)) =
    (result_of (stopScan st), state_of (stopScan st), trace_of (stopScan st)) /\
  scanSubscription (state_of (stopScan st)) = scanSubscription st /\
  match managerRef st with
  | Some _ =>
      scanning (state_of (stopScan st)) = false /\
      hd_error (trace_of (stopScan st)) = Some StopDeviceScan /\
      result_of (stopScan st) = remove_outcome (scanSubscription st)
  | None => stopScan st = (Ret tt, st, [])
  end.
Proof.
  rewrite !stopScan_state. cbn [result_of state_of trace_of fst snd].
  destruct (managerRef st) as [m|] eqn:Hm; cbn; rewrite Hm; by cbn.
Qed.

Example stopScan_on_a_promise :
  stopScan scan_in_progress_promise =
    (Throw TypeError, with_scanning false scan_in_progress_promise, [StopDeviceScan]) /\
  stopScan (with_scanning false scan_in_progress_promise) =
    (Throw TypeError, with_scanning false scan_in_progress_promise, [StopDeviceScan]) /\
  stopScan scan_in_progress_subscribed =
    (Ret tt, with_scanning false scan_in_progress_subscribed,
     [StopDeviceScan; SubscriptionRemove 1]).
Proof. split_and!; reflexivity. Qed.

(** X13. Where the permission step lets the scan start, pressing the scan
    button on an idle screen with a manager and pressing it again starts
    the scan and then stops that same scan: the second press calls
    [stopDeviceScan], clears the flag and applies [remove] to what
    [startDeviceScan] returned on the first press, ending normally when
    that is nullish and in a [TypeError] when it is a value without
    [remove]. *)
Theorem scan_button_toggles
    (btoa : string -> outcome string) (env : Env) (st : State)
    (m : Ble.BleManager) (tr : list Event) :
  managerRef st = Some m ->
  scanning st = false ->
  result_of (requestAndroidPermissions env st) = Ret true ->
  run btoa [PressScan env; PressScan env] (st, tr) =
    (with_scanning false
       (with_scanSubscription (Ble.startDeviceScan m)
          (with_scanning true (with_devices (fun _ => []) st))),
     tr ++ trace_of (requestAndroidPermissions env st)
        ++ [StartDeviceScan; StopDeviceScan]
        ++ remove_calls (Ble.startDeviceScan m)) /\
  result_of (onPressScan env (state_of (onPressScan env st)))
    = remove_outcome (Ble.startDeviceScan m).
Proof.
  intros Hm Hscan Hok.
  assert (onPressScan env st =
          (Ret tt,
           with_scanSubscription (Ble.startDeviceScan m)
             (with_scanning true (with_devices (fun _ => []) st)),
           trace_of (requestAndroidPermissions env st) ++ [StartDeviceScan]))
    as Hfirst.
  { unfold onPressScan. rewrite bind_read, Hscan.
    by rewrite (startScan_available _ _ _ Hm), Hok. }
  cbn [run handler fst snd]. rewrite Hfirst. cbn [state_of fst snd].
  unfold onPressScan. rewrite bind_read.
  cbn [scanning with_scanSubscription with_scanning].
  rewrite stopScan_state. cbn. rewrite Hm. unfold stop_calls. cbn.
  split; [|done]. by rewrite <- !app_assoc.
Qed.

Lemma scan_button_toggles_witness :
  run base64_encode [PressScan Demo.android_scan_only; PressScan Demo.android_scan_only]
    (idle, []) =
  (with_scanning false
     (with_scanSubscription None
        (with_scanning true (with_devices (fun _ => []) idle))),
   [RequestMultiple requested_permissions; StartDeviceScan; StopDeviceScan]) /\
  result_of (onPressScan Demo.android_scan_only
               (state_of (onPressScan Demo.android_scan_only idle))) = Ret tt.
Proof.
  apply (scan_button_toggles base64_encode Demo.android_scan_only idle Demo.manager []).
  - reflexivity.
  - reflexivity.
  - by vm_compute.
Defined.

Example scan_button_on_a_promise :
  result_of (onPressScan Demo.ios (state_of (onPressScan Demo.ios
               (mounted (Ret Faults.promise_manager)).1))) = Throw TypeError /\
  scanning (state_of (onPressScan Demo.ios (state_of (onPressScan Demo.ios
               (mounted (Ret Faults.promise_manager)).1)))) = false.
Proof. split; reflexivity. Qed.

(** X14. Off Android, [startScan] with a manager asks for no permission:
    it empties the device list, sets the flag, starts the scan and stores
    what [startDeviceScan] returned. *)
Theorem startScan_without_runtime_permissions
    (env : Env) (st : State) (m : Ble.BleManager) :
  Platform_OS env <> "android" ->
  managerRef st = Some m ->
  startScan env st =
    (Ret tt,
     with_scanSubscription (Ble.startDeviceScan m)
       (with_scanning true (with_devices (fun _ => []) st)),
     [StartDeviceScan]).
Proof.
  intros Hos Hm.
  by rewrite (startScan_available _ _ _ Hm), (requestAndroidPermissions_other _ _ Hos).
Qed.

Lemma startScan_without_runtime_permissions_witness :
  startScan Demo.ios scanned_twice =
    (Ret tt,
     with_scanSubscription None
       (with_scanning true (with_devices (fun _ => []) scanned_twice)),
     [StartDeviceScan]).
Proof.
  apply (startScan_without_runtime_permissions Demo.ios scanned_twice Demo.manager).
  - discriminate.
  - reflexivity.
Defined.

(** X15. On Android the answer for Bluetooth connect plays no part in the
    permission check: two answers of the dialog that differ only in that
    entry give the same result.  Granting Bluetooth connect alone is a
    denial. *)
Theorem bluetooth_connect_answer_is_ignored
    (env1 env2 : Env) (granted : gmap string string) (answer : string) (st : State) :
  Platform_OS env1 = "android" ->
  Platform_OS env2 = "android" ->
  requestMultiple env1 requested_permissions = Ret granted ->
  requestMultiple env2 requested_permissions =
    Ret (<[PermissionsAndroid.BLUETOOTH_CONNECT := answer]> granted) ->
  requestAndroidPermissions env2 st = requestAndroidPermissions env1 st.
Proof.
  intros Hos1 Hos2 Hg1 Hg2.
  rewrite (requestAndroidPermissions_android _ _ Hos1),
    (requestAndroidPermissions_android _ _ Hos2), Hg1, Hg2.
  unfold scan_permission_granted. by rewrite !lookup_insert_ne.
Qed.

Lemma bluetooth_connect_answer_is_ignored_witness :
  requestAndroidPermissions Faults.android_connect_only idle =
    requestAndroidPermissions Demo.android_denied idle /\
  requestAndroidPermissions Faults.android_connect_only idle =
    (Ret false, idle, [RequestMultiple requested_permissions]).
Proof.
  assert (requestAndroidPermissions Faults.android_connect_only idle =
          requestAndroidPermissions Demo.android_denied idle) as Heq.
  { by apply (bluetooth_connect_answer_is_ignored Demo.android_denied
                Faults.android_connect_only
                (list_to_map (map (fun p => (p, PermissionsAndroid.DENIED))
                                requested_permissions))
                PermissionsAndroid.GRANTED idle). }
  split; [exact Heq|]. rewrite Heq. by vm_compute.
Defined.

(** ** Mounting without BLE, and unmounting *)

(** X16. Unmounting swallows whatever [destroy] does.  It ends in an
    exception exactly when removing the stored scan subscription throws,
    and then the manager ref is left as it was; otherwise it removes the
    subscription if there is one, leaves the manager ref null and the rest
    of the state as it was.  A handler that runs after a completed
    cleanup only finds the manager missing: [stopScan] does nothing, and
    [startScan], [connectToDevice] and [sendPayload] raise the
    "BLE unavailable" alert. *)
Theorem useEffect_cleanup_outcome
    (destroy : Ble.BleManager -> outcome unit) (st : State) :
  useEffect_cleanup destroy st =
    match remove_outcome (scanSubscription st) with
    | Ret _ =>
        (Ret tt, with_managerRef None st, remove_calls (scanSubscription st))
    | Throw e => (Throw e, st, remove_calls (scanSubscription st))
    end /\
  stopScan (with_managerRef None st) = (Ret tt, with_managerRef None st, []) /\
  (forall env,
     startScan env (with_managerRef None st)
     = (Ret tt, with_managerRef None st, [alert_ble_unavailable])) /\
  (forall device,
     connectToDevice device (with_managerRef None st)
     = (Ret tt, with_managerRef None st, [alert_ble_unavailable])) /\
  (forall btoa,
     sendPayload btoa (with_managerRef None st)
     = (Ret tt, with_managerRef None st, [alert_ble_unavailable])).
Proof.
  split_and!.
  - unfold useEffect_cleanup.
    rewrite bind_read, bind_eq, subscription_remove_eq.
    assert (forall st0,
              try_catch
                (m <- read managerRef ;;
                 match m with
                 | Some m => settle (destroy m)
                 | None => ret tt
                 end) (fun _ => ret tt) st0 = (Ret tt, st0, [])) as Htry.
    { intros st0. rewrite try_catch_eq, bind_read.
      destruct (managerRef st0) as [m|]; [|done].
      unfold settle. by destruct (destroy m) as [[]|e]. }
    destruct (remove_outcome (scanSubscription st)) as [[]|e]; [|done].
    cbn [result_of state_of trace_of fst snd].
    rewrite bind_eq, Htry. cbn [result_of state_of trace_of fst snd modify].
    by rewrite !app_nil_r.
  - by apply stopScan_unavailable.
  - intros env. by apply startScan_unavailable.
  - intros device. by apply connectToDevice_unavailable.
  - intros btoa. by apply sendPayload_unavailable.
Qed.

Example unmount_while_scanning :
  useEffect_cleanup Faults.destroy_fails scan_in_progress =
    (Ret tt, with_managerRef None scan_in_progress, []) /\
  useEffect_cleanup Faults.destroy_fails scan_in_progress_subscribed =
    (Ret tt, with_managerRef None scan_in_progress_subscribed,
     [SubscriptionRemove 1]) /\
  useEffect_cleanup Faults.destroy_fails scan_in_progress_promise =
    (Throw TypeError, scan_in_progress_promise, []) /\
  managerRef scan_in_progress_promise = Some Faults.promise_manager /\
  useEffect_cleanup Faults.destroy_fails without_ble = (Ret tt, without_ble, []).
Proof. split_and!; reflexivity. Qed.

Section WithoutBle.

Variable btoa : string -> outcome string.

Lemma without_ble_handler a st :
  managerRef st = None -> connected st = None -> scanning st = false ->
  (managerRef (state_of (handler btoa a st)) = None /\
   connected (state_of (handler btoa a st)) = None /\
   scanning (state_of (handler btoa a st)) = false) /\
  Forall (fun e => is_ble_or_os_call e = false) (trace_of (handler btoa a st)).
Proof.
  intros Hm Hc Hs.
  destruct a as [env|env| |err device|device| |text| ]; cbn [handler].
  - unfold onPressScan. rewrite bind_read, Hs, (startScan_unavailable _ _ Hm).
    by repeat constructor.
  - rewrite (startScan_unavailable _ _ Hm). by repeat constructor.
  - rewrite (stopScan_unavailable _ Hm). by repeat constructor.
  - destruct err as [err|]; [by repeat constructor|].
    destruct device as [device|]; [|by repeat constructor].
    unfold scanListener. case_bool_decide; by repeat constructor.
  - rewrite (connectToDevice_unavailable _ _ Hm). by repeat constructor.
  - rewrite (onPressDisconnect_idle _ Hc). by repeat constructor.
  - by repeat constructor.
  - rewrite (sendPayload_unavailable _ _ Hm). by repeat constructor.
Qed.

Lemma without_ble_run acts w :
  managerRef w.1 = None -> connected w.1 = None -> scanning w.1 = false ->
  Forall (fun e => is_ble_or_os_call e = false) w.2 ->
  (managerRef (run btoa acts w).1 = None /\
   connected (run btoa acts w).1 = None /\
   scanning (run btoa acts w).1 = false) /\
  Forall (fun e => is_ble_or_os_call e = false) (run btoa acts w).2.
Proof.
  revert w. induction acts as [|a acts IH]; intros w Hm Hc Hs Htr; cbn [run]; [done|].
  destruct (without_ble_handler a w.1 Hm Hc Hs) as [(Hm' & Hc' & Hs') Htr'].
  destruct (handler btoa a w.1) as [[r st'] tr]. apply IH; [done..|].
  cbn [snd]. by apply Forall_app.
Qed.

End WithoutBle.

(** X17. Where [new BleManager()] throws, the screen still mounts: the
    failure is logged to the console, not alerted, and from then on no
    action reaches the BLE library or the OS permission dialog; the
    screen never scans and never connects. *)
Theorem no_ble_no_calls
    (btoa : string -> outcome string) (e : exn) (acts : list Action) :
  (mounted (Throw e)).2
    = [ConsoleWarn (Some "BleManager not available in this environment") e] /\
  (managerRef (run btoa acts (mounted (Throw e))).1 = None /\
   connected (run btoa acts (mounted (Throw e))).1 = None /\
   scanning (run btoa acts (mounted (Throw e))).1 = false) /\
  Forall (fun ev => is_ble_or_os_call ev = false) (run btoa acts (mounted (Throw e))).2.
Proof.
  split; [reflexivity|]. apply without_ble_run; try reflexivity.
  by repeat constructor.
Qed.

(** ** One alert per attempt *)

(** X18. [connectToDevice] answers every attempt with exactly one alert:
    "BLE unavailable" without a manager, the connected notice when
    connection and discovery succeed, the connection-failure alert (after
    a console diagnostic) otherwise.  It asks the manager for at most one
    connection. *)
Theorem connectToDevice_one_alert (device : Ble.Device) (st : State) :
  count_alerts (trace_of (connectToDevice device st)) = 1 /\
  length (filter (fun e => is_connect e = true)
            (trace_of (connectToDevice device st))) <= 1 /\
  (alert_ble_unavailable ∈ trace_of (connectToDevice device st) \/
   alert_connect_failed ∈ trace_of (connectToDevice device st) \/
   exists d, alert_connected d ∈ trace_of (connectToDevice device st) /\
             connected (state_of (connectToDevice device st)) = Some d).
Proof.
  destruct (managerRef st) as [m|] eqn:Hm.
  - rewrite (connectToDevice_with_manager _ _ _ Hm). unfold stop_calls.
    destruct (remove_outcome (scanSubscription st)) as [[]|e0];
      [destruct (Ble.connectToDevice m _) as [d|e];
       [destruct (Ble.discoverAllServicesAndCharacteristics d) as [[]|e]|]|];
      destruct (scanSubscription st) as [[sub rm| ]|];
      cbn [remove_calls trace_of state_of fst snd app];
      (split; [reflexivity|]); (split; [vm_compute; lia|]).
    1,2,3: right; right; exists d; split; [set_unfold; tauto|done].
    all: right; left; set_unfold; tauto.
  - rewrite (connectToDevice_unavailable _ _ Hm). cbn [trace_of state_of fst snd].
    split; [reflexivity|]. split; [vm_compute; lia|]. left. set_unfold; tauto.
Qed.

(** X19. [startScan] either starts the scan without any alert, or raises
    exactly one alert (BLE unavailable or the permission notice) and
    leaves the whole state, device list included, as it was. *)
Theorem startScan_starts_or_alerts (env : Env) (st : State) :
  (StartDeviceScan ∈ trace_of (startScan env st) /\
   count_alerts (trace_of (startScan env st)) = 0 /\
   scanning (state_of (startScan env st)) = true /\
   devices (state_of (startScan env st)) = []) \/
  ((StartDeviceScan ∉ trace_of (startScan env st)) /\
   count_alerts (trace_of (startScan env st)) = 1 /\
   state_of (startScan env st) = st).
Proof.
  destruct (managerRef st) as [m|] eqn:Hm.
  - rewrite (startScan_available _ _ _ Hm).
    destruct (decide (Platform_OS env = "android")) as [Hos|Hos].
    + rewrite (requestAndroidPermissions_android _ _ Hos).
      cbn [result_of trace_of state_of fst snd].
      destruct (match requestMultiple env requested_permissions with
                | Ret granted => scan_permission_granted granted
                | Throw _ => false
                end); cbn [trace_of state_of fst snd app].
      * left. split_and!; [set_unfold; tauto|reflexivity..].
      * right. split_and!; [|reflexivity..].
        intros Hin. set_unfold. destruct Hin as [Hin|[Hin|[]]]; discriminate Hin.
    + rewrite (requestAndroidPermissions_other _ _ Hos).
      left. cbn. split_and!; [set_unfold; tauto|reflexivity..].
  - rewrite (startScan_unavailable _ _ Hm). right. cbn. split_and!; [|reflexivity..].
    intros Hin. set_unfold. destruct Hin as [Hin|[]]. discriminate Hin.
Qed.
